(** * visupt: event extraction and interval rendering of [src/app.py]

    A shallow embedding of [extract_events] and of the interval part of
    [create_gantt_chart].

    - A Python [str] is the list of its code points.
    - A value read by [json.load] is a [value].
    - Code that can raise returns a [result]; the exception classes are the
      ones the embedded statements can raise.
    - A timezone-aware [datetime] built by [datetime.fromtimestamp(n, utc)]
      from an integer [n] is represented by [n] itself (seconds since the
      epoch): the order on such datetimes is the order on these integers. *)

From Stdlib Require Import ZArith NArith String Ascii List Bool Lia.
From Stdlib Require Import Sorting.Sorted Sorting.Permutation.
Import ListNotations.

Set Warnings "-register-all".

(** ** Strings *)

Definition char := N.
Definition str := list char.

(** The code points of an ASCII literal of the source. *)
Definition lit (s : string) : str := map N_of_ascii (list_ascii_of_string s).

Definition newline : char := 10%N.
Definition quote : char := 34%N.
Definition slash : char := 47%N.
Definition space : char := 32%N.
Definition dot : char := 46%N.

Fixpoint str_eqb (a b : str) : bool :=
  match a, b with
  | [], [] => true
  | x :: a', y :: b' => N.eqb x y && str_eqb a' b'
  | _, _ => false
  end.

(** [Py_UNICODE_ISSPACE]: the test behind [str.strip()], [str.isspace()] and
    the [\s] class of [re] on [str] patterns. *)
Definition isspace (c : char) : bool :=
  ((9 <=? c) && (c <=? 13) || (28 <=? c) && (c <=? 32)
   || (c =? 133) || (c =? 160) || (c =? 5760)
   || (8192 <=? c) && (c <=? 8202)
   || (c =? 8232) || (c =? 8233) || (c =? 8239) || (c =? 8287)
   || (c =? 12288))%N.

(** Dropping the leading characters that satisfy [p]. *)
Fixpoint lstrip_by (p : char -> bool) (s : str) : str :=
  match s with
  | c :: s' => if p c then lstrip_by p s' else s
  | [] => []
  end.

(** [s.rstrip()] when [p] is [isspace], [s.rstrip("/")] when [p] tests for
    the slash: every trailing character that satisfies [p] goes. *)
Fixpoint rstrip_by (p : char -> bool) (s : str) : str :=
  match s with
  | [] => []
  | c :: s' =>
      match rstrip_by p s' with
      | [] => if p c then [] else [c]
      | r => c :: r
      end
  end.

Definition strip_by (p : char -> bool) (s : str) : str :=
  rstrip_by p (lstrip_by p s).

(** [s.strip()] *)
Definition strip (s : str) : str := strip_by isspace s.

(** [s.rstrip("/")] *)
Definition rstrip_slash (s : str) : str := rstrip_by (N.eqb slash) s.

(** [s.startswith(p)], returning what follows the prefix. *)
Fixpoint after_prefix (eqc : char -> char -> bool) (p s : str) : option str :=
  match p, s with
  | [], _ => Some s
  | x :: p', y :: s' => if eqc x y then after_prefix eqc p' s' else None
  | _ :: _, [] => None
  end.

(** [s.find(sub)]: the least index at which [sub] occurs in [s]. *)
Fixpoint find (sub s : str) : option nat :=
  match after_prefix N.eqb sub s with
  | Some _ => Some O
  | None =>
      match s with
      | [] => None
      | _ :: s' => option_map S (find sub s')
      end
  end.

(** [sub in s] for two strings. *)
Definition contains (sub s : str) : bool :=
  match find sub s with Some _ => true | None => false end.

(** [re.sub(r"\s+", " ", s)]: each maximal run of whitespace becomes one
    space. *)
Fixpoint collapse_from (in_run : bool) (s : str) : str :=
  match s with
  | [] => []
  | c :: s' =>
      if isspace c
      then if in_run then collapse_from true s'
           else space :: collapse_from true s'
      else c :: collapse_from false s'
  end.

Definition collapse_ws (s : str) : str := collapse_from false s.

(** ** Values and exceptions *)

(** A [float]: a finite one is [m * 2^e]. *)
Inductive pyfloat :=
| FFinite (m e : Z)
| FInf (negative : bool)
| FNaN.

(** What [json.load] returns.  A [dict] keeps its items in insertion order;
    [dict_lookup] takes the first item of a key. *)
Inductive value :=
| VNone
| VBool (b : bool)
| VInt (z : Z)
| VFloat (f : pyfloat)
| VStr (s : str)
| VList (l : list value)
| VDict (d : list (str * value)).

Inductive exn :=
| ValueError
| TypeError
| OverflowError
| OSError
| AttributeError
| KeyError.

Inductive result (A : Type) :=
| Ok (a : A)
| Raise (e : exn).

Arguments Ok {A} a.
Arguments Raise {A} e.

Definition bind {A B} (r : result A) (f : A -> result B) : result B :=
  match r with
  | Ok a => f a
  | Raise e => Raise e
  end.

Notation "x <- r ;; k" := (bind r (fun x => k))
  (at level 61, r at next level, right associativity).

Fixpoint dict_lookup (key : str) (d : list (str * value)) : option value :=
  match d with
  | [] => None
  | (k, v) :: d' => if str_eqb k key then Some v else dict_lookup key d'
  end.

(** [key in d] *)
Definition dict_has (key : str) (d : list (str * value)) : bool :=
  match dict_lookup key d with Some _ => true | None => false end.

(** [d.get(key, default)] *)
Definition dict_get (key : str) (default : value) (d : list (str * value))
  : value :=
  match dict_lookup key d with Some v => v | None => default end.

(** [d[key]] *)
Definition dict_item (key : str) (d : list (str * value)) : result value :=
  match dict_lookup key d with Some v => Ok v | None => Raise KeyError end.

(** [v == s] for a string literal [s]: only an equal [str] is equal to it. *)
Definition eq_str (v : value) (s : str) : bool :=
  match v with
  | VStr t => str_eqb t s
  | _ => false
  end.

(** [sub in v] for a string [sub]: a substring test on a [str], a membership
    test on a [list], a key test on a [dict], a [TypeError] on the rest. *)
Definition py_in (sub : str) (v : value) : result bool :=
  match v with
  | VStr s => Ok (contains sub s)
  | VList l => Ok (existsb (fun x => eq_str x sub) l)
  | VDict d => Ok (dict_has sub d)
  | VNone | VBool _ | VInt _ | VFloat _ => Raise TypeError
  end.

(** Truth value of an object in a condition. *)
Definition truthy (v : value) : bool :=
  match v with
  | VNone => false
  | VBool b => b
  | VInt z => negb (z =? 0)%Z
  | VFloat (FFinite m _) => negb (m =? 0)%Z
  | VFloat _ => true
  | VStr s => negb (str_eqb s [])
  | VList l => match l with [] => false | _ => true end
  | VDict d => match d with [] => false | _ => true end
  end.

(** [v.strip()]: only a [str] has the method. *)
Definition py_strip (v : value) : result str :=
  match v with
  | VStr s => Ok (strip s)
  | _ => Raise AttributeError
  end.

(** *** [int(v)] *)

(** The digit zero of every script with decimal digits (Unicode 14.0, the
    database of CPython 3.11); the nine other digits follow it. *)
Definition decimal_zeros : list N :=
  [48; 1632; 1776; 1984; 2406; 2534; 2662; 2790; 2918; 3046; 3174; 3302;
   3430; 3558; 3664; 3792; 3872; 4160; 4240; 6112; 6160; 6470; 6608; 6784;
   6800; 6992; 7088; 7232; 7248; 42528; 43216; 43264; 43472; 43504; 43600;
   44016; 65296; 66720; 68912; 69734; 69872; 69942; 70096; 70384; 70736;
   70864; 71248; 71360; 71472; 71904; 72016; 72784; 73040; 73120; 92768;
   92864; 93008; 120782; 120792; 120802; 120812; 120822; 123200; 123632;
   125264; 130032]%N.

(** [Py_UNICODE_TODECIMAL]: the value of a decimal digit. *)
Definition digit_of (c : char) : option Z :=
  match List.find (fun z => (z <=? c) && (c <=? z + 9))%N decimal_zeros with
  | Some z => Some (Z.of_N (c - z))
  | None => None
  end.

Definition underscore : char := 95%N.

(** Digits of a decimal literal, single underscores allowed between two
    digits: [acc] is the value read so far, [n] the number of digits read. *)
Fixpoint read_digits (acc : Z) (n : nat) (s : str) : option (Z * nat) :=
  match s with
  | [] => Some (acc, n)
  | c :: s' =>
      match digit_of c with
      | Some d => read_digits (10 * acc + d)%Z (S n) s'
      | None =>
          if (c =? underscore)%N
          then match s' with
               | c' :: _ => match digit_of c' with
                            | Some _ => read_digits acc n s'
                            | None => None
                            end
               | [] => None
               end
          else None
      end
  end.

(** [sys.get_int_max_str_digits()] *)
Definition int_max_str_digits : nat := 4300.

Definition read_unsigned (s : str) : option Z :=
  match s with
  | [] => None
  | c :: _ =>
      match digit_of c with
      | None => None
      | Some _ =>
          match read_digits 0 0 s with
          | Some (z, n) => if (n <=? int_max_str_digits)%nat then Some z
                           else None
          | None => None
          end
      end
  end.

(** The whitespace [int] skips around a literal: the Unicode spaces but the
    four ASCII separators U+001C..U+001F. *)
Definition int_space (c : char) : bool :=
  isspace c && negb ((28 <=? c) && (c <=? 31))%N.

(** [int(s)] for a [str]: surrounding whitespace, an optional sign, decimal
    digits. *)
Definition int_of_str (s : str) : option Z :=
  match strip_by int_space s with
  | c :: s' =>
      if (c =? 45)%N then option_map Z.opp (read_unsigned s')
      else if (c =? 43)%N then read_unsigned s'
      else read_unsigned (c :: s')
  | [] => None
  end.

Definition py_int (v : value) : result Z :=
  match v with
  | VInt z => Ok z
  | VBool b => Ok (if b then 1 else 0)%Z
  | VFloat (FFinite m e) =>
      Ok (if (0 <=? e)%Z then m * 2 ^ e else Z.quot m (2 ^ (- e)))%Z
  | VFloat (FInf _) => Raise OverflowError
  | VFloat FNaN => Raise ValueError
  | VStr s => match int_of_str s with
              | Some z => Ok z
              | None => Raise ValueError
              end
  | VNone | VList _ | VDict _ => Raise TypeError
  end.

(** *** [datetime.fromtimestamp(n, timezone.utc)] *)

(** 0001-01-01 00:00:00 and 9999-12-31 23:59:59, in seconds since the epoch. *)
Definition datetime_min : Z := -62135596800.
Definition datetime_max : Z := 253402300799.

(** The seconds [gmtime_r] converts with a 32-bit [tm_year]. *)
Definition gmtime_min : Z := -67768040609740800.
Definition gmtime_max : Z := 67768036191676799.

(** CPython on a platform with a 64-bit [time_t]: an integer that does not
    fit [time_t] is an [OverflowError], one that [gmtime_r] rejects an
    [OSError], a year outside 1..9999 a [ValueError]. *)
Definition fromtimestamp (n : Z) : result Z :=
  if ((n <? - 2 ^ 63) || (2 ^ 63 <=? n))%Z then Raise OverflowError
  else if ((n <? gmtime_min) || (gmtime_max <? n))%Z then Raise OSError
  else if ((n <? datetime_min) || (datetime_max <? n))%Z then Raise ValueError
  else Ok n.

(** ** The regular expressions of [extract_events]

    A backtracking matcher for the constructs the two patterns use, with the
    choices in the order [re] tries them: the alternatives of [|] from left
    to right, a greedy repetition from the longest run down, a lazy one from
    the shortest up.  Repetitions are over one character class, as in both
    patterns. *)

Inductive cset :=
| CAny                 (* .     : every character but the newline *)
| CSpace               (* \s *)
| CNot (c : char).     (* [^c] *)

Definition cset_mem (cs : cset) (c : char) : bool :=
  match cs with
  | CAny => negb (c =? newline)%N
  | CSpace => isspace c
  | CNot x => negb (c =? x)%N
  end.

Inductive regex :=
| RBol                                        (* ^ *)
| RLit (ignorecase : bool) (s : str)          (* literal text *)
| RRep (greedy : bool) (least : nat) (cs : cset)  (* cs* cs+ cs*? *)
| RSeq (r1 r2 : regex)
| RAlt (r1 r2 : regex)
| RGroup (n : nat) (r : regex).               (* capturing group number n *)

(** The lower-case mapping [re.IGNORECASE] applies to a character of the
    subject, on the code points that map to an ASCII letter: A-Z, U+0130 and
    U+212A.  No other code point maps to a letter of the patterns below. *)
Definition sre_lower (c : char) : char :=
  if ((65 <=? c) && (c <=? 90))%N then (c + 32)%N
  else if (c =? 304)%N then 105%N
  else if (c =? 8490)%N then 107%N
  else c.

(** A pattern character against a subject character under [re.IGNORECASE]:
    equal after lowering, or one of the pairs [re] treats as equivalent
    (i and U+0131, s and U+017F). *)
Definition eq_ignorecase (p c : char) : bool :=
  let lo := sre_lower p in
  let lc := sre_lower c in
  ((lc =? lo) || (lo =? 105) && (lc =? 305) || (lo =? 115) && (lc =? 383))%N.

Definition eq_char (ignorecase : bool) : char -> char -> bool :=
  if ignorecase then eq_ignorecase else N.eqb.

(** The groups set so far, latest first. *)
Definition captures := list (nat * str).

Fixpoint group (n : nat) (m : captures) : option str :=
  match m with
  | [] => None
  | (k, s) :: m' => if (k =? n)%nat then Some s else group n m'
  end.

(** What remains to be matched after a position: the continuation receives
    the rest of the subject and the groups. *)
Definition cont := str -> captures -> option captures.

Fixpoint rep_greedy (cs : cset) (least : nat) (s : str) (m : captures)
    (k : cont) {struct s} : option captures :=
  let stop := match least with O => k s m | S _ => None end in
  match s with
  | c :: s' =>
      if cset_mem cs c
      then match rep_greedy cs (pred least) s' m k with
           | Some r => Some r
           | None => stop
           end
      else stop
  | [] => stop
  end.

Fixpoint rep_lazy (cs : cset) (least : nat) (s : str) (m : captures)
    (k : cont) {struct s} : option captures :=
  let more :=
    match s with
    | c :: s' => if cset_mem cs c then rep_lazy cs (pred least) s' m k
                 else None
    | [] => None
    end in
  match least with
  | O => match k s m with
         | Some r => Some r
         | None => more
         end
  | S _ => more
  end.

(** [rmatch subject r s m k]: [r] against the rest [s] of [subject], then
    [k].  A group holds the text between the rest where it starts and the
    rest where it ends. *)
Fixpoint rmatch (subject : str) (r : regex) (s : str) (m : captures)
    (k : cont) {struct r} : option captures :=
  match r with
  | RBol => if (length s =? length subject)%nat then k s m else None
  | RLit ic l =>
      match after_prefix (eq_char ic) l s with
      | Some s' => k s' m
      | None => None
      end
  | RRep true least cs => rep_greedy cs least s m k
  | RRep false least cs => rep_lazy cs least s m k
  | RSeq r1 r2 =>
      rmatch subject r1 s m (fun s' m' => rmatch subject r2 s' m' k)
  | RAlt r1 r2 =>
      match rmatch subject r1 s m k with
      | Some x => Some x
      | None => rmatch subject r2 s m k
      end
  | RGroup n r1 =>
      rmatch subject r1 s m
        (fun s' m' => k s' ((n, firstn (length s - length s') s) :: m'))
  end.

Definition accept : cont := fun _ m => Some m.

(** [pattern.match(s)]: a match that starts at the first character. *)
Definition re_match (r : regex) (s : str) : option captures :=
  rmatch s r s [] accept.

(** [pattern.search(s)]: the match at the leftmost position that has one,
    [s] being the rest of [subject] from the position tried. *)
Fixpoint search_from (subject : str) (r : regex) (s : str)
  : option captures :=
  match rmatch subject r s [] accept with
  | Some m => Some m
  | None =>
      match s with
      | [] => None
      | _ :: s' => search_from subject r s'
      end
  end.

Definition re_search (r : regex) (s : str) : option captures :=
  search_from s r s.

Fixpoint rseq (rs : list regex) : regex :=
  match rs with
  | [] => RLit false []
  | [r] => r
  | r :: rs' => RSeq r (rseq rs')
  end.

Definition status_phrases : regex :=
  RAlt (RLit true (lit "is now UP"))
       (RAlt (RLit true (lit "is now DOWN")) (RLit true (lit "is still DOWN"))).

(** [^(.*?)\s+(?:is now UP|is now DOWN|is still DOWN)], [re.IGNORECASE] *)
Definition title_regex : regex :=
  rseq [RBol; RGroup 1 (RRep false 0 CAny); RRep true 1 CSpace; status_phrases].

(** The first alternative of [target_regex]: [.*?], the text ["type":],
    [\s*], the text ["link",], [\s*], the text ["text":], [\s*], a double
    quote, group 1 (one or more characters other than the double quote), a
    double quote. *)
Definition target_link_alt : regex :=
  rseq [RRep false 0 CAny;
        RLit false (quote :: lit "type" ++ quote :: lit ":");
        RRep true 0 CSpace;
        RLit false (quote :: lit "link" ++ quote :: lit ",");
        RRep true 0 CSpace;
        RLit false (quote :: lit "text" ++ quote :: lit ":");
        RRep true 0 CSpace;
        RLit false [quote];
        RGroup 1 (RRep true 1 (CNot quote));
        RLit false [quote]].

(** The second alternative of [target_regex]: [([^\n]+)], group 2. *)
Definition target_plain_alt : regex :=
  RGroup 2 (RRep true 1 (CNot newline)).

(** [Target:\s*(?: link alternative | plain alternative )] *)
Definition target_regex : regex :=
  rseq [RLit false (lit "Target:"); RRep true 0 CSpace;
        RAlt target_link_alt target_plain_alt].

(** ** Events *)

Inductive Status := UP | DOWN.

Record Event := mkEvent { service : str; status : Status; time : Z }.

(** [events.sort(key=lambda x: x["time"])]: a stable sort.  A stable sort has
    one result, so the insertion sort below computes what the library's
    does. *)
Fixpoint insert_by_time (e : Event) (l : list Event) : list Event :=
  match l with
  | [] => [e]
  | x :: l' => if (time e <=? time x)%Z then e :: l
               else x :: insert_by_time e l'
  end.

Fixpoint sort_by_time (l : list Event) : list Event :=
  match l with
  | [] => []
  | e :: l' => insert_by_time e (sort_by_time l')
  end.

(** [for x in v]: the elements of a list, the characters of a string, the
    keys of a dict. *)
Definition py_iter (v : value) : result (list value) :=
  match v with
  | VList l => Ok l
  | VStr s => Ok (map (fun c => VStr [c]) s)
  | VDict d => Ok (map (fun kv => VStr (fst kv)) d)
  | VNone | VBool _ | VInt _ | VFloat _ => Raise TypeError
  end.

(** [a or b] on two groups of a match, each a string or [None]. *)
Definition py_or (a b : option str) : option str :=
  match a with
  | Some (_ :: _) => a
  | _ => b
  end.

Definition is_none {A} (o : option A) : bool :=
  match o with None => true | Some _ => false end.

Definition is_some {A} (o : option A) : bool := negb (is_none o).

(** ** [extract_events] *)

Section Extractor.

(** [str(v)] of a value that is not a [str] is its [repr]: the text of the
    [repr] of numbers and containers is left open, and nothing below depends
    on it. *)
Variable py_repr : value -> str.

Definition py_str (v : value) : str :=
  match v with
  | VStr s => s
  | _ => py_repr v
  end.

(** Lines 47-53: the test that skips a message of another shape. *)
Definition unexpected_format (msg : value) : bool :=
  match msg with
  | VDict d =>
      negb (eq_str (dict_get (lit "from") VNone d) (lit "HetrixTools"))
      || negb (dict_has (lit "text_entities") d)
      || negb (dict_has (lit "date_unixtime") d)
  | _ => true
  end.

(** Lines 55-59: [None] is the [continue] of the [except] clause, which
    catches [ValueError] and [TypeError] only. *)
Definition parse_timestamp (d : list (str * value)) : result (option Z) :=
  match (v <- dict_item (lit "date_unixtime") d ;;
         timestamp <- py_int v ;;
         fromtimestamp timestamp) with
  | Ok dt_object => Ok (Some dt_object)
  | Raise ValueError | Raise TypeError => Ok None
  | Raise e => Raise e
  end.

(** Lines 69-73: what one item of a list-shaped body adds to
    [text_content]. *)
Definition item_text (item : value) : result str :=
  match item with
  | VDict d =>
      if dict_has (lit "text") d
      then v <- dict_item (lit "text") d ;; Ok (py_str v ++ [newline])
      else Ok []
  | VStr s => Ok (s ++ [newline])
  | _ => Ok []
  end.

Fixpoint join_items (text_content : str) (items : list value) : result str :=
  match items with
  | [] => Ok text_content
  | item :: rest =>
      t <- item_text item ;;
      join_items (text_content ++ t) rest
  end.

(** Lines 67-77: [None] is the [continue] of the last branch. *)
Definition build_text_content (raw_text : value) : result (option str) :=
  match raw_text with
  | VList items => t <- join_items [] items ;; Ok (Some t)
  | VStr s => Ok (Some s)
  | _ => Ok None
  end.

(** [isinstance(entity, dict) and entity.get("type") == ty] *)
Definition has_type (ty : str) (entity : value) : bool :=
  match entity with
  | VDict d => eq_str (dict_get (lit "type") VNone d) ty
  | _ => false
  end.

(** [entity.get("text", "")] *)
Definition entity_text (entity : value) : value :=
  match entity with
  | VDict d => dict_get (lit "text") (VStr []) d
  | _ => VStr []
  end.

(** Lines 84-98: the loop that sets [status] and [bold_text_content]; both
    stay [None] when no entity matches. *)
Fixpoint scan_status (text_entities : list value)
  : result (option Status * value) :=
  match text_entities with
  | [] => Ok (None, VNone)
  | entity :: rest =>
      if has_type (lit "bold") entity
      then
        let current_bold_text := entity_text entity in
        up <- py_in (lit "is now UP") current_bold_text ;;
        if up then Ok (Some UP, current_bold_text)
        else
          down <- py_in (lit "is now DOWN") current_bold_text ;;
          if down then Ok (Some DOWN, current_bold_text)
          else
            still <- py_in (lit "is still DOWN") current_bold_text ;;
            if still then Ok (Some DOWN, current_bold_text)
            else scan_status rest
      else scan_status rest
  end.

(** Lines 102-107, method 1: [title_regex.match] raises [TypeError] on an
    object that is not a string. *)
Definition title_target (status : option Status) (bold_text_content : value)
  : result (option str) :=
  if is_some status && truthy bold_text_content
  then
    match bold_text_content with
    | VStr s =>
        match re_match title_regex s with
        | Some title_match =>
            match group 1 title_match with
            | Some g => Ok (Some (strip g))
            | None => Raise AttributeError
            end
        | None => Ok None
        end
    | _ => Raise TypeError
    end
  else Ok None.

(** Lines 110-115, method 2. *)
Definition target_line (target : option str) (status : option Status)
    (text_content : str) : option str :=
  if is_none target && is_some status
  then
    match re_search target_regex text_content with
    | Some m =>
        match py_or (group 1 m) (group 2 m) with
        | Some (c :: t) => Some (strip (c :: t))
        | other => other
        end
    | None => target
    end
  else target.

(** Lines 119-127: the loop of method 3. *)
Fixpoint first_link (text_entities : list value) : result (option str) :=
  match text_entities with
  | [] => Ok None
  | entity :: rest =>
      if has_type (lit "link") entity
      then
        let potential_target_text := entity_text entity in
        has_dot <- py_in [dot] potential_target_text ;;
        if has_dot
        then
          has_space <- py_in [space] potential_target_text ;;
          if negb has_space
          then t <- py_strip potential_target_text ;; Ok (Some t)
          else first_link rest
        else first_link rest
      else first_link rest
  end.

(** Lines 118-127, method 3. *)
Definition link_target (target : option str) (status : option Status)
    (text_entities : list value) : result (option str) :=
  if is_none target && is_some status
  then
    found <- first_link text_entities ;;
    Ok (match found with Some t => Some t | None => target end)
  else Ok target.

(** Lines 100-127: the three methods in sequence. *)
Definition find_target (status : option Status) (bold_text_content : value)
    (text_content : str) (text_entities : list value) : result (option str) :=
  target <- title_target status bold_text_content ;;
  let target := target_line target status text_content in
  link_target target status text_entities.

(** Lines 132-134.  [target] is a string here, so [str(target)] is
    [target]. *)
Definition normalize (target : str) : str :=
  let target := rstrip_slash target in
  strip (collapse_ws target).

(** Lines 130-136: the event appended, if any. *)
Definition clean_up (target : option str) (status : option Status)
    (dt_object : Z) : option Event :=
  match target, status with
  | Some (c :: t), Some st =>
      match normalize (c :: t) with
      | [] => None
      | name => Some (mkEvent name st dt_object)
      end
  | _, _ => None
  end.

(** Lines 61-136: the body of the loop once the timestamp is read. *)
Definition extract_event (d : list (str * value)) (dt_object : Z)
  : result (option Event) :=
  text <- build_text_content (dict_get (lit "text") (VStr []) d) ;;
  match text with
  | None => Ok None
  | Some text_content =>
      match dict_get (lit "text_entities") (VList []) d with
      | VList text_entities =>
          found <- scan_status text_entities ;;
          let (status, bold_text_content) := found in
          target <- find_target status bold_text_content text_content
                      text_entities ;;
          Ok (clean_up target status dt_object)
      | _ => Ok None
      end
  end.

(** Lines 46-136: one turn of the loop; [Ok None] when nothing is
    appended. *)
Definition process_message (msg : value) : result (option Event) :=
  if unexpected_format msg then Ok None
  else
    match msg with
    | VDict d =>
        ts <- parse_timestamp d ;;
        match ts with
        | Some dt_object => extract_event d dt_object
        | None => Ok None
        end
    | _ => Ok None
    end.

(** Lines 45-136: the loop, [events] being the list built so far. *)
Fixpoint collect (events : list Event) (messages : list value)
  : result (list Event) :=
  match messages with
  | [] => Ok events
  | msg :: rest =>
      r <- process_message msg ;;
      collect (match r with Some e => events ++ [e] | None => events end) rest
  end.

Definition extract_events (messages : value) : result (list Event) :=
  match messages with
  | VNone => Ok []
  | _ =>
      msgs <- py_iter messages ;;
      events <- collect [] msgs ;;
      Ok (sort_by_time events)
  end.

End Extractor.

(** ** The intervals of [create_gantt_chart]

    The chart is modelled by the bars it draws: one [Bar] per call of
    [ax.barh], in the order of the calls.  Instants and durations are in
    microseconds, the resolution of [datetime] and [timedelta]. *)

Inductive colour := mediumseagreen | lightcoral.

Record Bar := mkBar { row : nat; left : Z; width : Z; color : colour }.

(** The instant of an event, in microseconds since the epoch. *)
Definition instant (e : Event) : Z := 1000000 * time e.

Definition status_eqb (a b : Status) : bool :=
  match a, b with
  | UP, UP | DOWN, DOWN => true
  | _, _ => false
  end.

(** ["mediumseagreen" if last_status == "UP" else "lightcoral"] *)
Definition colour_of (last_status : Status) : colour :=
  if status_eqb last_status UP then mediumseagreen else lightcoral.

(** Lines 198-200: ["DOWN" if first_event["status"] == "UP" else "UP"] *)
Definition initial_status (first_event : Event) : Status :=
  if status_eqb (status first_event) UP then DOWN else UP.

(** Lines 202-227: the loop over the events of one service, from the state
    [(last_time, last_status)]; it returns the bars drawn and the state
    reached. *)
Fixpoint plot_events (i : nat) (last_time : Z) (last_status : Status)
    (service_events : list Event) : list Bar * (Z * Status) :=
  match service_events with
  | [] => ([], (last_time, last_status))
  | event :: rest =>
      let current_time := instant event in
      let current_status := status event in
      let drawn :=
        if (last_time <? current_time)%Z
        then
          let bar_width := (current_time - last_time)%Z in
          if (0 <? bar_width)%Z
          then [mkBar i last_time bar_width (colour_of last_status)]
          else []
        else [] in
      let (bars, final) := plot_events i current_time current_status rest in
      (drawn ++ bars, final)
  end.

(** Lines 229-243: the bar from the last event to the end of the chart. *)
Definition plot_tail (i : nat) (plot_end_time : Z) (final : Z * Status)
  : list Bar :=
  let (last_time, last_status) := final in
  if (last_time <? plot_end_time)%Z
  then
    let bar_width := (plot_end_time - last_time)%Z in
    if (0 <? bar_width)%Z
    then [mkBar i last_time bar_width (colour_of last_status)]
    else []
  else [].

(** Lines 193-243: the bars of one row.  [service_events[0]] exists: the
    service is the service of a filtered event. *)
Definition plot_service (i : nat) (plot_start_time plot_end_time : Z)
    (service_events : list Event) : list Bar :=
  match service_events with
  | [] => []
  | first_event :: _ =>
      let last_time := plot_start_time in
      let last_status := initial_status first_event in
      let (bars, final) := plot_events i last_time last_status service_events in
      bars ++ plot_tail i plot_end_time final
  end.

(** The order of [str]: by code points, a proper prefix first. *)
Fixpoint str_ltb (a b : str) : bool :=
  match a, b with
  | _, [] => false
  | [], _ :: _ => true
  | x :: a', y :: b' => (x <? y)%N || (x =? y)%N && str_ltb a' b'
  end.

Fixpoint insert_service (s : str) (l : list str) : list str :=
  match l with
  | [] => [s]
  | x :: l' =>
      if str_eqb s x then l
      else if str_ltb s x then s :: l
      else x :: insert_service s l'
  end.

(** [sorted(list(set(names)))] *)
Definition sorted_set (names : list str) : list str :=
  fold_right insert_service [] names.

(** [min(...)] and [max(...)] of the instants of a list that is not empty. *)
Definition min_instant (first : Event) (rest : list Event) : Z :=
  fold_left (fun acc e => Z.min acc (instant e)) rest (instant first).

Definition max_instant (first : Event) (rest : list Event) : Z :=
  fold_left (fun acc e => Z.max acc (instant e)) rest (instant first).

(** Division to the nearest integer, ties to even, for a positive divisor. *)
Definition divide_nearest (a b : Z) : Z :=
  let q := (a / b)%Z in
  let r := (a mod b)%Z in
  if (2 * r <? b)%Z then q
  else if (b <? 2 * r)%Z then (q + 1)%Z
  else if Z.even q then q else (q + 1)%Z.

(** [time_diff * 0.02]: a [timedelta] times a [float] is the exact product
    with the ratio of the float, 5764607523034235 / 2^58 for [0.02], rounded
    to a microsecond. *)
Definition times_0_02 (time_diff : Z) : Z :=
  divide_nearest (time_diff * 5764607523034235) (2 ^ 58).

(** [timedelta(minutes=5)] *)
Definition five_minutes : Z := 300000000.

(** A [datetime] plus a [timedelta]: [OverflowError] outside the years
    1..9999. *)
Definition datetime_add (t delta : Z) : result Z :=
  let r := (t + delta)%Z in
  if ((r <? 1000000 * datetime_min)
      || (1000000 * datetime_max + 999999 <? r))%Z
  then Raise OverflowError
  else Ok r.

Fixpoint enumerate {A} (i : nat) (l : list A) : list (nat * A) :=
  match l with
  | [] => []
  | x :: l' => (i, x) :: enumerate (S i) l'
  end.

Section Renderer.

(** [str.lower]: the case mapping of the Unicode database. *)
Variable py_lower : str -> str.

(** Line 148: [s.strip().rstrip('/').lower()] *)
Definition selection_key (s : str) : str := py_lower (rstrip_slash (strip s)).

(** Lines 149-151 *)
Definition filter_events (events : list Event) (selected_services : list str)
  : list Event :=
  let selected_services_set_lower := map selection_key selected_services in
  filter (fun e => existsb (str_eqb (py_lower (service e)))
                     selected_services_set_lower) events.

(** Lines 176-185: the range of the chart. *)
Definition plot_range (first : Event) (rest : list Event) : result (Z * Z) :=
  let min_time := min_instant first rest in
  let max_time := max_instant first rest in
  let time_diff := (max_time - min_time)%Z in
  let padding := times_0_02 time_diff in
  let padding := if (padding <? five_minutes)%Z then five_minutes
                 else padding in
  plot_start_time <- datetime_add min_time (- padding) ;;
  plot_end_time <- datetime_add max_time padding ;;
  Ok (plot_start_time, plot_end_time).

(** Lines 189-243: the rows of the chart, top to bottom. *)
Definition plot_rows (filtered_events : list Event) (y_labels : list str)
    (plot_start_time plot_end_time : Z) : list Bar :=
  flat_map
    (fun row_label =>
       let service_events :=
         filter (fun e => str_eqb (service e) (snd row_label))
                filtered_events in
       plot_service (fst row_label) plot_start_time plot_end_time
         service_events)
    (enumerate 0 y_labels).

(** Lines 143-243: the bars drawn; none when the function returns early. *)
Definition create_gantt_chart (events : list Event)
    (selected_services : list str) : result (list Bar) :=
  match filter_events events selected_services with
  | [] => Ok []
  | first :: rest =>
      let filtered_events := first :: rest in
      let services_with_data := sorted_set (map service filtered_events) in
      match services_with_data with
      | [] => Ok []
      | _ =>
          range <- plot_range first rest ;;
          let (plot_start_time, plot_end_time) := range in
          Ok (plot_rows filtered_events services_with_data
                plot_start_time plot_end_time)
      end
  end.

End Renderer.

(** ** Vocabulary of the statements *)

(** ["from"] of a message, [None] when it has none. *)
Definition sender (msg : value) : value :=
  match msg with
  | VDict d => dict_get (lit "from") VNone d
  | _ => VNone
  end.

(** A message the loop does not skip before it looks for a status: it has
    the expected structure, its timestamp is read as [dt_object], its body
    is assembled as [text_content] and its entities are the list
    [text_entities]. *)
Record Eligible (py_repr : value -> str) (msg : value) (dt_object : Z)
    (text_content : str) (text_entities : list value) : Prop := {
  eligible_format : unexpected_format msg = false;
  eligible_time :
    match msg with
    | VDict d => parse_timestamp d = Ok (Some dt_object)
    | _ => False
    end;
  eligible_text :
    match msg with
    | VDict d =>
        build_text_content py_repr (dict_get (lit "text") (VStr []) d)
        = Ok (Some text_content)
    | _ => False
    end;
  eligible_entities :
    match msg with
    | VDict d =>
        dict_get (lit "text_entities") (VList []) d = VList text_entities
    | _ => False
    end
}.

(** Messages for the examples. *)
Definition entity (type text : string) : value :=
  VDict [(lit "type", VStr (lit type)); (lit "text", VStr (lit text))].

Definition message (date : value) (text : value) (entities : list value)
  : value :=
  VDict [(lit "id", VInt 1); (lit "from", VStr (lit "HetrixTools"));
         (lit "date_unixtime", date); (lit "text", text);
         (lit "text_entities", VList entities)].

(** A [repr] for the examples; none of them prints a value that is not a
    string. *)
Definition repr_unused (v : value) : str := lit "<object>".

(** The three phrases of a status announcement. *)
Definition is_status_phrase (p : str) : Prop :=
  p = lit "is now UP" \/ p = lit "is now DOWN" \/ p = lit "is still DOWN".

(** The text of a link entity, and the test of method 3 on it: a link whose
    text has a "." and no space. *)
Definition link_text (x : value) : str :=
  match entity_text x with
  | VStr s => s
  | _ => []
  end.

Definition suitable_link (x : value) : bool :=
  has_type (lit "link") x
  && contains [dot] (link_text x)
  && negb (contains [space] (link_text x)).

Definition link_text_is_str (x : value) : Prop :=
  has_type (lit "link") x = true -> exists s, entity_text x = VStr s.

(** The normalization as the words "strip one trailing slash if present"
    have it, to be compared with [normalize]. *)
Definition strip_one_slash (s : str) : str :=
  match rev s with
  | c :: r => if (c =? slash)%N then rev r else s
  | [] => s
  end.

Definition normalize_one_slash (target : str) : str :=
  strip (collapse_ws (strip_one_slash target)).


(** What one message adds to the list, in a run where nothing is raised. *)
Definition events_of (py_repr : value -> str) (msg : value) : list Event :=
  match process_message py_repr msg with
  | Ok (Some e) => [e]
  | _ => []
  end.

Definition time_le (a b : Event) : Prop := (time a <= time b)%Z.

(** The events of a list at a given time, in the order of the list. *)
Definition at_time (t : Z) (l : list Event) : list Event :=
  filter (fun e => (time e =? t)%Z) l.

(** The text up to the end of the line. *)
Fixpoint first_line (s : str) : str :=
  match s with
  | [] => []
  | c :: s' => if (c =? newline)%N then [] else c :: first_line s'
  end.

(** The line a fragment of a list-shaped body contributes to the body text:
    the fragment is a string, or an object with a "text" (printed with
    [str]); anything else contributes nothing. *)
Definition body_line (py_repr : value -> str) (item : value) : str :=
  match item with
  | VStr s => s ++ [newline]
  | VDict d =>
      match dict_lookup (lit "text") d with
      | Some v => py_str py_repr v ++ [newline]
      | None => []
      end
  | _ => []
  end.

(** The patterns with no [^]: what they match does not depend on where the
    rest of the subject starts. *)
Fixpoint no_bol (r : regex) : bool :=
  match r with
  | RBol => false
  | RLit _ _ | RRep _ _ _ => true
  | RSeq r1 r2 | RAlt r1 r2 => no_bol r1 && no_bol r2
  | RGroup _ r1 => no_bol r1
  end.

(** A bold entity whose text is [null]. *)
Definition bold_without_text : value :=
  VDict [(lit "type", VStr (lit "bold")); (lit "text", VNone)].

(** [str.lower] on ASCII letters, for the examples. *)
Definition ascii_lower (s : str) : str :=
  map (fun c => if ((65 <=? c) && (c <=? 90))%N then (c + 32)%N else c) s.

(** The messages of the examples. *)
Definition msg_title_and_target : value :=
  message (VStr (lit "1700000000"))
    (VStr (lit "Target: [example.com](http://example.com)"))
    [entity "bold" "example.com is now DOWN"; entity "link" "example.com"].

Definition msg_target_and_link : value :=
  message (VStr (lit "1700000000")) (VStr (lit "Target: foo.com"))
    [entity "bold" "is now DOWN"; entity "link" "svc.org"].

Definition msg_status_only : value :=
  message (VStr (lit "1700000000")) (VStr (lit "Monitor alert"))
    [entity "bold" "is now DOWN"; entity "link" "no dot"].

Definition msg_link_only : value :=
  message (VStr (lit "1700000300")) (VStr [])
    [entity "bold" "is still DOWN"; entity "link" "svc.org"].

Definition msg_trailing_slash : value :=
  message (VStr (lit "1700000000")) (VStr [])
    [entity "bold" "example.com/ is now UP"].

Definition msg_two_slashes : value :=
  message (VStr (lit "1700000000")) (VStr [])
    [entity "bold" "a// is now UP"].

Definition msg_blank_title : value :=
  message (VStr (lit "1700000000")) (VStr (lit "Target: example.com"))
    [entity "bold" " is now UP"; entity "link" "svc.org"].


Definition msg_other_sender : value :=
  VDict [(lit "from", VStr (lit "Someone"));
         (lit "date_unixtime", VStr (lit "1700000000"));
         (lit "text", VStr []);
         (lit "text_entities", VList [entity "bold" "a.org is now UP"])].

(** A text whose whitespace is single spaces, none at its start when
    [in_run] is set: the shape [collapse_from in_run] gives. *)
Fixpoint spaced (in_run : bool) (s : str) : bool :=
  match s with
  | [] => true
  | c :: s' =>
      if isspace c then (c =? space)%N && negb in_run && spaced true s'
      else spaced false s'
  end.

(** The entities of a message all have a string as text (an entity without
    a text has the empty one). *)
Definition texts_are_strings (msg : value) : Prop :=
  forall d es,
    msg = VDict d ->
    dict_get (lit "text_entities") (VList []) d = VList es ->
    Forall (fun x => exists s, entity_text x = VStr s) es.

(** The timestamp of a message is not a number beyond what [gmtime_r]
    converts: an integer, a boolean, a finite float or a string, whose
    integer value, if it has one, is within [gmtime_min .. gmtime_max]. *)
Definition timestamp_converts (msg : value) : Prop :=
  forall d v,
    msg = VDict d ->
    dict_lookup (lit "date_unixtime") d = Some v ->
    match py_int v with
    | Ok n => (gmtime_min <= n <= gmtime_max)%Z
    | Raise e => e = ValueError \/ e = TypeError
    end.

(** ** [parse_hetrix_log]

    The file is what the calls on it give: [os.path.exists] is false, [open]
    or the read raises, [json.load] raises [JSONDecodeError], or [json.load]
    returns a value.  The function returns the value it returns, [None]
    included, with the error it printed, if any. *)

Inductive file_state :=
| Missing
| Unreadable
| Malformed
| Loaded (data : value).

Inductive report :=
| FileNotFound          (* "Error: File not found at ..." *)
| MessagesKeyNotFound   (* "Error: 'messages' key not found in ..." *)
| CouldNotDecode        (* "Error: Could not decode JSON from ..." *)
| ErrorOccurred.        (* "An error occurred while reading ..." *)

(** [data[key]] for a string [key]: only a [dict] is indexed by a string. *)
Definition subscript (key : str) (data : value) : result value :=
  match data with
  | VDict d => dict_item key d
  | _ => Raise TypeError
  end.

(** Lines 17-21, inside the [try]. *)
Definition messages_of (data : value) : result (option value) :=
  has_key <- py_in (lit "messages") data ;;
  if negb has_key then Ok None
  else v <- subscript (lit "messages") data ;; Ok (Some v).

Definition parse_hetrix_log (file : file_state) : option report * value :=
  match file with
  | Missing => (Some FileNotFound, VNone)
  | Unreadable => (Some ErrorOccurred, VNone)
  | Malformed => (Some CouldNotDecode, VNone)
  | Loaded data =>
      match messages_of data with
      | Ok (Some messages) => (None, messages)
      | Ok None => (Some MessagesKeyNotFound, VNone)
      | Raise _ => (Some ErrorOccurred, VNone)
      end
  end.

(** ** The main block *)

(** [x in l] for a set or a list of strings. *)
Definition mem (x : str) (l : list str) : bool := existsb (str_eqb x) l.

(** [m[k] = v] on a dict from strings to strings: a key keeps the place of
    its first insertion. *)
Fixpoint map_set (k v : str) (m : list (str * str)) : list (str * str) :=
  match m with
  | [] => [(k, v)]
  | (k', v') :: m' =>
      if str_eqb k' k then (k', v) :: m' else (k', v') :: map_set k v m'
  end.

Fixpoint insert_str (s : str) (l : list str) : list str :=
  match l with
  | [] => [s]
  | x :: l' => if str_ltb x s then x :: insert_str s l' else s :: l
  end.

(** [sorted(l)] for a list of strings. *)
Definition sorted_strs (l : list str) : list str :=
  fold_right insert_str [] l.

Inductive outcome :=
| NothingLoaded                    (* [all_messages] is false *)
| NoEvents                         (* "No valid UP/DOWN events ..." *)
| NoServicesSpecified (detected : list str)
| NoneFound (detected warned : list str)
| Charted (detected warned : list str) (bars : list Bar).

Section Main.

Variable py_repr : value -> str.
Variable py_lower : str -> str.

(** Line 300: [sorted(list(set(e["service"] for e in all_events)))] *)
Definition all_detected_services (all_events : list Event) : list str :=
  sorted_set (map service all_events).

(** Lines 317-319: the dict comprehension, a later name replacing an earlier
    one of the same key. *)
Definition user_services_map_lower_to_original (services_to_plot : list str)
  : list (str * str) :=
  fold_left (fun m s => map_set (selection_key py_lower s) s m)
    services_to_plot [].

(** Line 321 *)
Definition detected_services_set_lower (all_events : list Event)
  : list str :=
  map py_lower (all_detected_services all_events).

(** Lines 324-327 *)
Definition valid_services_lower (all_events : list Event)
    (services_to_plot : list str) : list str :=
  filter (fun s_lower => mem s_lower (detected_services_set_lower all_events))
    (map fst (user_services_map_lower_to_original services_to_plot)).

(** Lines 329-333 *)
Definition invalid_services_original (all_events : list Event)
    (services_to_plot : list str) : list str :=
  map snd
    (filter (fun kv => negb (mem (fst kv)
                               (detected_services_set_lower all_events)))
       (user_services_map_lower_to_original services_to_plot)).

(** Lines 344-347 *)
Definition services_for_charting (all_events : list Event)
    (services_to_plot : list str) : list str :=
  filter (fun s => mem (selection_key py_lower s)
                     (valid_services_lower all_events services_to_plot))
    services_to_plot.

(** Lines 291-353, [services_to_plot] being the list configured at line
    286. *)
Definition main (file : file_state) (services_to_plot : list str)
  : result outcome :=
  let all_messages := snd (parse_hetrix_log file) in
  if truthy all_messages
  then
    all_events <- extract_events py_repr all_messages ;;
    match all_events with
    | [] => Ok NoEvents
    | _ :: _ =>
        let detected := all_detected_services all_events in
        match services_to_plot with
        | [] => Ok (NoServicesSpecified detected)
        | _ :: _ =>
            let warned :=
              sorted_strs
                (invalid_services_original all_events services_to_plot) in
            match valid_services_lower all_events services_to_plot with
            | _ :: _ =>
                bars <- create_gantt_chart py_lower all_events
                          (services_for_charting all_events
                             services_to_plot) ;;
                Ok (Charted detected warned bars)
            | [] => Ok (NoneFound detected warned)
            end
        end
    end
  else Ok NothingLoaded.

End Main.


(** The last of the requested names whose key is [k]. *)
Definition last_request (py_lower : str -> str) (services_to_plot : list str)
    (k : str) : option str :=
  List.find (fun s => str_eqb (selection_key py_lower s) k)
    (rev services_to_plot).

(** Bars that follow one another from [from] to [to], each of a positive
    width, with no gap and no overlap. *)
Fixpoint tiles (from to : Z) (bars : list Bar) : Prop :=
  match bars with
  | [] => from = to
  | b :: bars' =>
      left b = from /\ (0 < width b)%Z /\ tiles (from + width b) to bars'
  end.

Definition str_lt (a b : str) : Prop := str_ltb a b = true.

Definition instant_le (a b : Event) : Prop := (instant a <= instant b)%Z.

(** Whether a string ends with a slash. *)
Definition ends_with_slash (s : str) : bool :=
  match rev s with
  | c :: _ => (c =? slash)%N
  | [] => false
  end.


(** More data for the examples. *)
Definition msg_blank_target : value :=
  message (VStr (lit "1700000000"))
    (VStr (lit "Alert" ++ [newline] ++ lit "Target: "))
    [entity "bold" "is still DOWN"; entity "link" "svc.org"].

Definition dict_year_33658 : list (str * value) :=
  [(lit "from", VStr (lit "HetrixTools"));
   (lit "date_unixtime", VInt 1000000000000);
   (lit "text", VStr []);
   (lit "text_entities", VList [entity "bold" "a.org is now UP"])].

Definition example_file : file_state :=
  Loaded (VDict [(lit "name", VStr (lit "alerts"));
                 (lit "messages",
                  VList [msg_link_only; msg_title_and_target;
                         msg_other_sender])]).

Definition example_events : list Event :=
  [mkEvent (lit "alpha") UP 1700000000;
   mkEvent (lit "beta") UP 1700000300;
   mkEvent (lit "alpha") DOWN 1700000600].


(** ** What the two patterns find, without the matcher

    The functions below say in terms of the text alone what [title_regex]
    and [target_regex] capture; the properties relate them to the matcher
    run on the patterns. *)

(** The characters at the start of [s] that satisfy [p]. *)
Fixpoint take_while (p : char -> bool) (s : str) : str :=
  match s with
  | c :: s' => if p c then c :: take_while p s' else []
  | [] => []
  end.

(** [s] starts with a status phrase, in any letter case. *)
Definition starts_with_phrase (s : str) : bool :=
  is_some (after_prefix eq_ignorecase (lit "is now UP") s)
  || is_some (after_prefix eq_ignorecase (lit "is now DOWN") s)
  || is_some (after_prefix eq_ignorecase (lit "is still DOWN") s).

(** [s] starts with whitespace, and a status phrase follows that
    whitespace. *)
Definition blanks_then_phrase (s : str) : bool :=
  match s with
  | c :: _ => isspace c && starts_with_phrase (lstrip_by isspace s)
  | [] => false
  end.

(** The name in a title: the text before the first run of whitespace that a
    status phrase follows, when no line break comes before that run. *)
Fixpoint title_name (s : str) : option str :=
  if blanks_then_phrase s then Some []
  else
    match s with
    | [] => None
    | c :: s' =>
        if (c =? newline)%N then None
        else option_map (cons c) (title_name s')
    end.

Definition not_quote (c : char) : bool := negb (c =? quote)%N.

(** A link-style fragment at the start of [t]: the texts ["type":],
    ["link",] and ["text":], whitespace allowed after each, then the display
    text between double quotes; the display text is not empty. *)
Definition link_here (t : str) : option str :=
  match after_prefix N.eqb (quote :: lit "type" ++ quote :: lit ":") t with
  | None => None
  | Some t1 =>
  match after_prefix N.eqb (quote :: lit "link" ++ quote :: lit ",")
          (lstrip_by isspace t1) with
  | None => None
  | Some t2 =>
  match after_prefix N.eqb (quote :: lit "text" ++ quote :: lit ":")
          (lstrip_by isspace t2) with
  | None => None
  | Some t3 =>
  match after_prefix N.eqb [quote] (lstrip_by isspace t3) with
  | None => None
  | Some t4 =>
      match take_while not_quote t4, lstrip_by not_quote t4 with
      | c :: d, _ :: _ => Some (c :: d)
      | _, _ => None
      end
  end end end end.

(** The display text of the first link-style fragment that starts on the
    line [t] starts. *)
Fixpoint link_on_line (t : str) : option str :=
  match link_here t with
  | Some d => Some d
  | None =>
      match t with
      | [] => None
      | c :: t' => if (c =? newline)%N then None else link_on_line t'
      end
  end.

(** The name found in [r], the text after the label: past the whitespace,
    line breaks included, the display text of a link-style fragment that
    starts on that line, else the text up to the end of that line; when only
    whitespace follows the label, the empty name, or nothing if that
    whitespace is line breaks only. *)
Definition target_after_label (r : str) : option str :=
  match lstrip_by isspace r with
  | c :: t =>
      Some (strip (match link_on_line (c :: t) with
                   | Some d => d
                   | None => first_line (c :: t)
                   end))
  | [] => if forallb (N.eqb newline) r then None else Some []
  end.

(** The name method 2 finds in a body: what follows the first "Target:",
    wherever in the body it stands. *)
Definition target_line_name (text : str) : option str :=
  match find (lit "Target:") text with
  | Some n => target_after_label (skipn (n + 7) text)
  | None => None
  end.

(** Method 1 on the bold text that set the status: the name in its title,
    trimmed.  A bold text that is not a string (a list or an object that
    holds a phrase) is refused by [match]. *)
Definition title_parse (bold : value) : result (option str) :=
  match bold with
  | VStr s => Ok (option_map strip (title_name s))
  | _ => Raise TypeError
  end.

(** What follows [.*?] in the link alternative of [target_regex]. *)
Definition link_fragment : regex :=
  rseq [RLit false (quote :: lit "type" ++ quote :: lit ":");
        RRep true 0 CSpace;
        RLit false (quote :: lit "link" ++ quote :: lit ",");
        RRep true 0 CSpace;
        RLit false (quote :: lit "text" ++ quote :: lit ":");
        RRep true 0 CSpace;
        RLit false [quote];
        RGroup 1 (RRep true 1 (CNot quote));
        RLit false [quote]].








(** * Properties *)

(** ** Strings *)

Lemma str_eqb_eq (a b : str) : str_eqb a b = true <-> a = b.
Proof.
  revert b; induction a as [|x a IH]; intros [|y b]; simpl;
    try (split; congruence).
  rewrite andb_true_iff, N.eqb_eq, IH. split.
  - intros [-> ->]; reflexivity.
  - intros H; injection H; auto.
Qed.

Lemma str_eqb_refl (a : str) : str_eqb a a = true.
Proof. apply str_eqb_eq; reflexivity. Qed.

Lemma eq_str_true (v : value) (s : str) : eq_str v s = true <-> v = VStr s.
Proof.
  destruct v; simpl; try (split; congruence).
  rewrite str_eqb_eq. split; congruence.
Qed.

Lemma eq_str_false (v : value) (s : str) : v <> VStr s -> eq_str v s = false.
Proof.
  intros H. destruct (eq_str v s) eqn:E; [|reflexivity].
  apply eq_str_true in E. contradiction.
Qed.

(** ** The loop of [extract_events] *)

Section ExtractorProperties.

Variable py_repr : value -> str.

Lemma collect_middle (msg : value) (pre post : list value) :
  process_message py_repr msg = Ok None ->
  forall events,
    collect py_repr events (pre ++ msg :: post)
    = collect py_repr events (pre ++ post).
Proof.
  intros H. induction pre as [|m pre IH]; intros events; simpl.
  - rewrite H. reflexivity.
  - destruct (process_message py_repr m) as [r|e]; simpl; auto.
Qed.

(** C8.  A message whose sender is not "HetrixTools" appends no event,
    whatever its other fields hold: its turn of the loop is a [continue],
    and the list extracted is the one extracted without the message. *)
Theorem other_sender_no_event (msg : value) :
  sender msg <> VStr (lit "HetrixTools") ->
  process_message py_repr msg = Ok None
  /\ forall pre post,
       extract_events py_repr (VList (pre ++ msg :: post))
       = extract_events py_repr (VList (pre ++ post)).
Proof.
  intros Hs.
  assert (Hp : process_message py_repr msg = Ok None).
  { unfold process_message.
    destruct msg as [| | | | |l|d]; try reflexivity.
    simpl in Hs. simpl. rewrite (eq_str_false _ _ Hs). reflexivity. }
  split; [exact Hp|].
  intros pre post. simpl. rewrite (collect_middle msg pre post Hp).
  reflexivity.
Qed.

Lemma eligible_process (msg : value) (dt_object : Z) (text_content : str)
    (text_entities : list value) :
  Eligible py_repr msg dt_object text_content text_entities ->
  process_message py_repr msg =
    (found <- scan_status text_entities ;;
     target <- find_target (fst found) (snd found) text_content
                 text_entities ;;
     Ok (clean_up target (fst found) dt_object)).
Proof.
  intros [Hf Ht Hx He]. unfold process_message. rewrite Hf.
  destruct msg as [| | | | |l|d]; try contradiction.
  rewrite Ht. simpl. unfold extract_event. rewrite Hx. simpl. rewrite He.
  destruct (scan_status text_entities) as [[st b]|e]; reflexivity.
Qed.

(** ** Matching *)

Lemma rep_greedy_run (cs : cset) (k : cont) (m r : captures) (rest : str) :
  match rest with [] => True | c :: _ => cset_mem cs c = false end ->
  k rest m = Some r ->
  forall (ws : str) (least : nat),
    forallb (cset_mem cs) ws = true ->
    (least <= length ws)%nat ->
    rep_greedy cs least (ws ++ rest) m k = Some r.
Proof.
  intros Hrest Hk. induction ws as [|c ws IH]; intros least Hall Hle.
  - simpl in *. assert (least = O) by lia; subst least.
    destruct rest as [|c rest]; simpl; [exact Hk|].
    rewrite Hrest. exact Hk.
  - simpl in Hall. apply andb_true_iff in Hall as [Hc Hall].
    simpl. rewrite Hc.
    rewrite (IH (pred least)); [reflexivity|exact Hall|].
    simpl in Hle. lia.
Qed.

Lemma rep_lazy_now (cs : cset) (k : cont) (m r : captures) (s : str) :
  k s m = Some r -> rep_lazy cs 0 s m k = Some r.
Proof. intros H. destruct s; simpl; rewrite H; reflexivity. Qed.

Lemma status_phrases_match (subject p rest : str) (m : captures) :
  is_status_phrase p ->
  rmatch subject status_phrases (p ++ rest) m accept = Some m.
Proof. intros [-> | [-> | ->]]; reflexivity. Qed.

Lemma title_match_blank (ws p rest : str) :
  ws <> [] -> forallb isspace ws = true -> is_status_phrase p ->
  re_match title_regex (ws ++ p ++ rest) = Some [(1%nat, [])].
Proof.
  intros Hne Hws Hp. unfold re_match, title_regex. simpl rseq.
  cbn [rmatch]. rewrite Nat.eqb_refl. apply rep_lazy_now.
  rewrite Nat.sub_diag. cbn [firstn].
  apply rep_greedy_run.
  - destruct Hp as [-> | [-> | ->]]; reflexivity.
  - apply status_phrases_match. exact Hp.
  - exact Hws.
  - destruct ws; [contradiction|simpl; lia].
Qed.

Lemma rep_greedy_ext (cs : cset) (k k' : cont) (m : captures) :
  (forall s' m', k s' m' = k' s' m') ->
  forall s least, rep_greedy cs least s m k = rep_greedy cs least s m k'.
Proof.
  intros Hk. induction s as [|c s IH]; intros least; simpl.
  - rewrite Hk. reflexivity.
  - rewrite IH, Hk. reflexivity.
Qed.

Lemma rep_lazy_ext (cs : cset) (k k' : cont) (m : captures) :
  (forall s' m', k s' m' = k' s' m') ->
  forall s least, rep_lazy cs least s m k = rep_lazy cs least s m k'.
Proof.
  intros Hk. induction s as [|c s IH]; intros least; simpl.
  - rewrite Hk. reflexivity.
  - rewrite IH, Hk. reflexivity.
Qed.

Lemma rmatch_subject (subject subject' : str) (r : regex) :
  no_bol r = true ->
  forall s m k k',
    (forall s' m', k s' m' = k' s' m') ->
    rmatch subject r s m k = rmatch subject' r s m k'.
Proof.
  induction r as [|ic l|g least cs|r1 IH1 r2 IH2|r1 IH1 r2 IH2|n r1 IH1];
    intros Hb s m k k' Hk; simpl in *.
  - discriminate.
  - destruct (after_prefix (eq_char ic) l s); [apply Hk|reflexivity].
  - destruct g; [apply rep_greedy_ext|apply rep_lazy_ext]; exact Hk.
  - apply andb_true_iff in Hb as [H1 H2].
    apply IH1; [exact H1|]. intros s' m'. apply IH2; assumption.
  - apply andb_true_iff in Hb as [H1 H2].
    rewrite (IH1 H1 s m k k' Hk), (IH2 H2 s m k k' Hk). reflexivity.
  - apply IH1; [exact Hb|]. intros s' m'. apply Hk.
Qed.

Lemma rep_greedy_sound (cs : cset) (k : cont) (m x : captures) :
  forall s least,
    rep_greedy cs least s m k = Some x ->
    exists u s', s = u ++ s' /\ (least <= length u)%nat /\ k s' m = Some x.
Proof.
  assert (Hstop : forall s least,
             match least with O => k s m | S _ => None end = Some x ->
             exists u s', s = u ++ s' /\ (least <= length u)%nat
                          /\ k s' m = Some x).
  { intros s [|n] H; [|discriminate]. exists [], s. auto. }
  induction s as [|c s IH]; intros least H; simpl in H.
  - apply Hstop. exact H.
  - destruct (cset_mem cs c); [|apply Hstop; exact H].
    destruct (rep_greedy cs (pred least) s m k) as [r|] eqn:E.
    + injection H as ->. destruct (IH _ E) as (u & s' & -> & Hle & Hk).
      exists (c :: u), s'. simpl. repeat split; [lia|exact Hk].
    + apply Hstop. exact H.
Qed.

Lemma rep_lazy_sound (cs : cset) (k : cont) (m x : captures) :
  forall s least,
    rep_lazy cs least s m k = Some x ->
    exists u s', s = u ++ s' /\ (least <= length u)%nat /\ k s' m = Some x.
Proof.
  induction s as [|c s IH]; intros least H; simpl in H.
  - destruct least; [|discriminate].
    destruct (k [] m) eqn:E; [|discriminate].
    exists [], []. rewrite E. auto.
  - assert (Hmore : (if cset_mem cs c then rep_lazy cs (pred least) s m k
                     else None) = Some x ->
                    exists u s', c :: s = u ++ s'
                                 /\ (least <= length u)%nat
                                 /\ k s' m = Some x).
    { destruct (cset_mem cs c); [|discriminate]. intros E.
      destruct (IH _ E) as (u & s' & -> & Hle & Hk).
      exists (c :: u), s'. simpl. repeat split; [lia|exact Hk]. }
    destruct least; [|apply Hmore; exact H].
    destruct (k (c :: s) m) eqn:E; [|apply Hmore; exact H].
    exists [], (c :: s). rewrite E. auto.
Qed.

Lemma firstn_app_length (u v : str) :
  firstn (length (u ++ v) - length v) (u ++ v) = u.
Proof.
  rewrite length_app, Nat.add_sub. rewrite firstn_app, Nat.sub_diag.
  rewrite firstn_all. simpl. apply app_nil_r.
Qed.

(** A match of the link alternative sets group 1, to a text that is not
    empty, and no other group. *)
Lemma link_alt_captures (subject s : str) (x : captures) :
  rmatch subject target_link_alt s [] accept = Some x ->
  exists c d, x = [(1%nat, c :: d)].
Proof.
  unfold target_link_alt. simpl rseq. cbn [rmatch]. intros H.
  apply rep_lazy_sound in H as (_ & s1 & _ & _ & H).
  destruct (after_prefix _ _ s1) as [s2|]; [|discriminate].
  apply rep_greedy_sound in H as (_ & s3 & _ & _ & H).
  destruct (after_prefix _ _ s3) as [s4|]; [|discriminate].
  apply rep_greedy_sound in H as (_ & s5 & _ & _ & H).
  destruct (after_prefix _ _ s5) as [s6|]; [|discriminate].
  apply rep_greedy_sound in H as (_ & s7 & _ & _ & H).
  destruct (after_prefix _ _ s7) as [s8|]; [|discriminate].
  apply rep_greedy_sound in H as (u & s9 & -> & Hu & H).
  destruct (after_prefix _ _ s9) as [s10|]; [|discriminate].
  unfold accept in H. injection H as <-.
  rewrite firstn_app_length.
  destruct u as [|c d]; [simpl in Hu; lia|]. exists c, d. reflexivity.
Qed.

Lemma after_prefix_app (sub rest : str) :
  after_prefix N.eqb sub (sub ++ rest) = Some rest.
Proof.
  induction sub as [|c sub IH]; simpl; [reflexivity|].
  rewrite N.eqb_refl. exact IH.
Qed.

(** [search] tries no position before the first occurrence of the text the
    pattern starts with, and none at all when the text does not occur. *)
Lemma search_from_label (subject sub : str) (r : regex) (rest : str)
    (m : captures) :
  rmatch subject r rest [] accept = Some m ->
  forall pre,
    find sub (pre ++ sub ++ rest) = Some (length pre) ->
    search_from subject (RSeq (RLit false sub) r) (pre ++ sub ++ rest)
    = Some m.
Proof.
  intros Hm. induction pre as [|c pre IH]; intros Hf.
  - simpl app. destruct (sub ++ rest) eqn:E;
      simpl; rewrite <- ?E; unfold eq_char;
      rewrite after_prefix_app, Hm; reflexivity.
  - simpl app in *. simpl in Hf. simpl. unfold eq_char.
    destruct (after_prefix N.eqb sub (c :: pre ++ sub ++ rest));
      [discriminate|].
    apply IH.
    destruct (find sub (pre ++ sub ++ rest)); simpl in Hf; congruence.
Qed.

Lemma search_from_no_label (subject sub : str) (r : regex) :
  forall s,
    find sub s = None ->
    search_from subject (RSeq (RLit false sub) r) s = None.
Proof.
  induction s as [|c s IH]; intros Hf; simpl in *; unfold eq_char.
  - destruct (after_prefix N.eqb sub []); [discriminate|reflexivity].
  - destruct (after_prefix N.eqb sub (c :: s)); [discriminate|].
    apply IH. destruct (find sub s); [discriminate|reflexivity].
Qed.

Lemma first_line_split (s : str) :
  exists rest,
    s = first_line s ++ rest
    /\ forallb (cset_mem (CNot newline)) (first_line s) = true
    /\ match rest with
       | [] => True
       | c :: _ => cset_mem (CNot newline) c = false
       end.
Proof.
  induction s as [|c s (rest & Hs & Hall & Hrest)]; simpl.
  - exists []. auto.
  - destruct (c =? newline)%N eqn:E.
    + exists (c :: s). simpl. rewrite E. auto.
    + exists rest. simpl. rewrite E, Hall. rewrite <- Hs. auto.
Qed.

Lemma group_greedy_run (subject : str) (n : nat) (cs : cset) (least : nat)
    (u rest : str) (m r : captures) (k : cont) :
  match rest with [] => True | c :: _ => cset_mem cs c = false end ->
  forallb (cset_mem cs) u = true ->
  (least <= length u)%nat ->
  k rest ((n, u) :: m) = Some r ->
  rmatch subject (RGroup n (RRep true least cs)) (u ++ rest) m k = Some r.
Proof.
  intros Hrest Hall Hle Hk. cbn [rmatch].
  apply rep_greedy_run; try assumption.
  rewrite firstn_app_length. exact Hk.
Qed.

(** The plain alternative takes the rest of the line as group 2. *)
Lemma plain_alt_line (subject : str) (c : char) (t : str) :
  (c =? newline)%N = false ->
  rmatch subject target_plain_alt (c :: t) [] accept
  = Some [(2%nat, first_line (c :: t))].
Proof.
  intros Hc. unfold target_plain_alt.
  assert (Hlen : (1 <= length (first_line (c :: t)))%nat)
    by (simpl; rewrite Hc; simpl; lia).
  remember (c :: t) as s eqn:Es.
  destruct (first_line_split s) as (rest & Hs & Hall & Hrest).
  rewrite Hs at 1.
  apply group_greedy_run; try assumption. reflexivity.
Qed.

Lemma target_regex_parts :
  target_regex
  = RSeq (RLit false (lit "Target:"))
         (RSeq (RRep true 0 CSpace) (RAlt target_link_alt target_plain_alt)).
Proof. reflexivity. Qed.

Lemma isspace_not_newline (c : char) :
  isspace c = false -> (c =? newline)%N = false.
Proof.
  intros H. destruct (c =? newline)%N eqn:E; [|reflexivity].
  apply N.eqb_eq in E. subst c. discriminate.
Qed.

(** *** What a repetition takes when only its longest run can go on *)

Lemma take_while_lstrip (p : char -> bool) (s : str) :
  s = take_while p s ++ lstrip_by p s.
Proof.
  induction s as [|c s IH]; simpl; [reflexivity|].
  destruct (p c); simpl; [f_equal; exact IH|reflexivity].
Qed.

Lemma take_while_all (p : char -> bool) (s : str) :
  forallb p (take_while p s) = true.
Proof.
  induction s as [|c s IH]; simpl; [reflexivity|].
  destruct (p c) eqn:E; simpl; [rewrite E; exact IH|reflexivity].
Qed.

Lemma lstrip_by_head (p : char -> bool) (s : str) (c : char) (t : str) :
  lstrip_by p s = c :: t -> p c = false.
Proof.
  induction s as [|x s IH]; simpl; [discriminate|].
  destruct (p x) eqn:E; [exact IH|].
  intros H. injection H as <- _. exact E.
Qed.

Lemma lstrip_by_nil (p : char -> bool) (s : str) :
  lstrip_by p s = [] -> forallb p s = true.
Proof.
  induction s as [|x s IH]; simpl; [reflexivity|].
  destruct (p x); [exact IH|discriminate].
Qed.

(** A greedy repetition followed by something that cannot start with a
    character of the class takes the whole run or fails. *)
Lemma rep_greedy_exact (cs : cset) (k : cont) (m : captures) :
  (forall c s', cset_mem cs c = true -> k (c :: s') m = None) ->
  forall s least,
    rep_greedy cs least s m k
    = if (least <=? length (take_while (cset_mem cs) s))%nat
      then k (lstrip_by (cset_mem cs) s) m
      else None.
Proof.
  intros Hk. induction s as [|c s IH]; intros least.
  - destruct least; reflexivity.
  - simpl. destruct (cset_mem cs c) eqn:E.
    + rewrite IH. simpl length.
      destruct least as [|n]; simpl pred.
      * simpl. destruct (k (lstrip_by (cset_mem cs) s) m); [reflexivity|].
        apply Hk. exact E.
      * change (S n <=? S (length (take_while (cset_mem cs) s)))%nat
          with (n <=? length (take_while (cset_mem cs) s))%nat.
        destruct (n <=? length (take_while (cset_mem cs) s))%nat;
          [|reflexivity].
        destruct (k (lstrip_by (cset_mem cs) s) m); reflexivity.
    + destruct least; reflexivity.
Qed.

(** *** The title pattern *)

Lemma status_phrases_exact (subject t : str) (m : captures) :
  rmatch subject status_phrases t m accept
  = if starts_with_phrase t then Some m else None.
Proof.
  unfold status_phrases, starts_with_phrase. cbn [rmatch eq_char].
  destruct (after_prefix eq_ignorecase (lit "is now UP") t);
    [reflexivity|].
  destruct (after_prefix eq_ignorecase (lit "is now DOWN") t);
    [reflexivity|].
  destruct (after_prefix eq_ignorecase (lit "is still DOWN") t);
    reflexivity.
Qed.

Lemma isspace_not_i (c : char) :
  isspace c = true -> eq_ignorecase 105%N c = false.
Proof.
  intros H. destruct (eq_ignorecase 105%N c) eqn:E; [|reflexivity].
  exfalso. revert H E. unfold eq_ignorecase, isspace.
  change (sre_lower 105%N) with 105%N. unfold sre_lower.
  destruct ((65 <=? c) && (c <=? 90))%N eqn:E1.
  - apply andb_true_iff in E1 as [Ha Hb].
    apply N.leb_le in Ha, Hb.
    rewrite !orb_true_iff, !andb_true_iff, !N.leb_le, !N.eqb_eq. lia.
  - destruct (c =? 304)%N eqn:E2.
    + apply N.eqb_eq in E2. subst c. discriminate.
    + destruct (c =? 8490)%N eqn:E3.
      * apply N.eqb_eq in E3. subst c. discriminate.
      * rewrite !orb_true_iff, !andb_true_iff, !N.leb_le, !N.eqb_eq. lia.
Qed.

Lemma space_starts_no_phrase (c : char) (s : str) :
  isspace c = true -> starts_with_phrase (c :: s) = false.
Proof.
  intros H. unfold starts_with_phrase.
  change (lit "is now UP") with (105%N :: lit "s now UP").
  change (lit "is now DOWN") with (105%N :: lit "s now DOWN").
  change (lit "is still DOWN") with (105%N :: lit "s still DOWN").
  cbn [after_prefix]. rewrite (isspace_not_i c H). reflexivity.
Qed.

(** Whitespace and a phrase at a position of the title: the greedy [\s+]
    takes all the whitespace there. *)
Lemma blanks_phrase_exact (subject s : str) (m : captures) :
  rep_greedy CSpace 1 s m
    (fun s' m' => rmatch subject status_phrases s' m' accept)
  = if blanks_then_phrase s then Some m else None.
Proof.
  rewrite rep_greedy_exact.
  - rewrite status_phrases_exact. unfold blanks_then_phrase.
    change (cset_mem CSpace) with isspace.
    destruct s as [|c s]; [reflexivity|].
    cbn [take_while]. destruct (isspace c); reflexivity.
  - intros c s' Hc. rewrite status_phrases_exact.
    rewrite (space_starts_no_phrase c s' Hc). reflexivity.
Qed.

Lemma rep_lazy_title (k : cont) :
  forall s pre,
    (forall u s', pre ++ s = u ++ s' ->
       k s' [] = if blanks_then_phrase s' then Some [(1%nat, u)] else None) ->
    rep_lazy CAny 0 s [] k
    = option_map (fun n => [(1%nat, pre ++ n)]) (title_name s).
Proof.
  induction s as [|c s IH]; intros pre Hk.
  - cbn [rep_lazy title_name]. rewrite (Hk pre [] eq_refl).
    reflexivity.
  - cbn [rep_lazy title_name]. rewrite (Hk pre (c :: s) eq_refl).
    destruct (blanks_then_phrase (c :: s)).
    + cbn [option_map]. rewrite app_nil_r. reflexivity.
    + cbn [cset_mem pred]. destruct (c =? newline)%N; cbn [negb];
        [reflexivity|].
      rewrite (IH (pre ++ [c])).
      * destruct (title_name s); cbn [option_map]; [|reflexivity].
        rewrite <- app_assoc. reflexivity.
      * intros u s' E. apply Hk. rewrite <- E, <- app_assoc. reflexivity.
Qed.

(** The title pattern captures the name of the title. *)
Lemma title_exact (s : str) :
  re_match title_regex s
  = option_map (fun n => [(1%nat, n)]) (title_name s).
Proof.
  unfold re_match, title_regex. simpl rseq. cbn [rmatch].
  rewrite Nat.eqb_refl.
  apply (rep_lazy_title _ s []).
  intros u s' E. simpl in E. subst s.
  rewrite firstn_app_length. apply blanks_phrase_exact.
Qed.

Lemma title_target_exact (st : Status) (s : str) :
  title_target (Some st) (VStr s) = Ok (option_map strip (title_name s)).
Proof.
  unfold title_target. cbn [is_some is_none negb andb truthy].
  destruct s as [|c s]; [reflexivity|].
  cbn [str_eqb negb]. rewrite title_exact.
  destruct (title_name (c :: s)); reflexivity.
Qed.

(** *** The target pattern *)

Lemma space_not_quote (c : char) : isspace c = true -> (quote =? c)%N = false.
Proof.
  intros H. destruct (quote =? c)%N eqn:E; [|reflexivity].
  apply N.eqb_eq in E. subst c. discriminate.
Qed.

Lemma lstrip_not_quote_head (s : str) (c : char) (t : str) :
  lstrip_by not_quote s = c :: t -> c = quote.
Proof.
  intros H. apply lstrip_by_head in H. unfold not_quote in H.
  apply negb_false_iff, N.eqb_eq in H. exact H.
Qed.

(** Group 1 and the closing double quote. *)
Lemma display_text_exact (subject s : str) :
  rmatch subject
    (RSeq (RGroup 1 (RRep true 1 (CNot quote))) (RLit false [quote]))
    s [] accept
  = match take_while not_quote s, lstrip_by not_quote s with
    | c :: d, _ :: _ => Some [(1%nat, c :: d)]
    | _, _ => None
    end.
Proof.
  cbn [rmatch eq_char]. rewrite rep_greedy_exact.
  - change (cset_mem (CNot quote)) with not_quote.
    pose proof (take_while_lstrip not_quote s) as Hs.
    pose proof (lstrip_not_quote_head s) as Hq.
    destruct (take_while not_quote s) as [|c d].
    + reflexivity.
    + cbn [length Nat.leb].
      destruct (lstrip_by not_quote s) as [|x r].
      * reflexivity.
      * rewrite (Hq x r eq_refl). cbn [after_prefix].
        rewrite N.eqb_refl. unfold accept.
        rewrite Hs at 2. rewrite Hs at 1.
        rewrite (Hq x r eq_refl), firstn_app_length. reflexivity.
  - intros c s' Hc. cbn [after_prefix]. cbn [cset_mem] in Hc.
    rewrite N.eqb_sym. apply negb_true_iff in Hc. rewrite Hc. reflexivity.
Qed.

Ltac blank_before_quote :=
  let c := fresh "c" in
  let s := fresh "s" in
  let H := fresh "H" in
  intros c s H; cbn [after_prefix];
  rewrite (space_not_quote c H); reflexivity.

(** [link_fragment] matches at a position when a link-style fragment
    starts there. *)
Lemma link_here_exact (subject t : str) :
  rmatch subject link_fragment t [] accept
  = option_map (fun d => [(1%nat, d)]) (link_here t).
Proof.
  unfold link_here, link_fragment. cbn [rseq]. cbn [rmatch eq_char].
  destruct (after_prefix N.eqb (quote :: lit "type" ++ quote :: lit ":") t)
    as [t1|]; [|reflexivity].
  rewrite rep_greedy_exact by blank_before_quote.
  cbn [Nat.leb]. change (cset_mem CSpace) with isspace.
  destruct (after_prefix N.eqb (quote :: lit "link" ++ quote :: lit ",")
              (lstrip_by isspace t1)) as [t2|]; [|reflexivity].
  rewrite rep_greedy_exact by blank_before_quote.
  cbn [Nat.leb]. change (cset_mem CSpace) with isspace.
  destruct (after_prefix N.eqb (quote :: lit "text" ++ quote :: lit ":")
              (lstrip_by isspace t2)) as [t3|]; [|reflexivity].
  rewrite rep_greedy_exact by blank_before_quote.
  cbn [Nat.leb]. change (cset_mem CSpace) with isspace.
  destruct (after_prefix N.eqb [quote] (lstrip_by isspace t3)) as [t4|];
    [|reflexivity].
  pose proof (display_text_exact subject t4) as Hd.
  cbn [rmatch eq_char] in Hd. rewrite Hd.
  destruct (take_while not_quote t4); [reflexivity|].
  destruct (lstrip_by not_quote t4); reflexivity.
Qed.

Lemma target_link_alt_parts :
  target_link_alt = RSeq (RRep false 0 CAny) link_fragment.
Proof. reflexivity. Qed.

(** The link alternative captures the display text of the first link-style
    fragment that starts on the line. *)
Lemma link_exact (subject t : str) :
  rmatch subject target_link_alt t [] accept
  = option_map (fun d => [(1%nat, d)]) (link_on_line t).
Proof.
  rewrite target_link_alt_parts. cbn [rmatch].
  induction t as [|c t IH].
  - cbn [rep_lazy link_on_line]. rewrite link_here_exact.
    destruct (link_here []); reflexivity.
  - cbn [rep_lazy link_on_line]. rewrite link_here_exact.
    destruct (link_here (c :: t)); [reflexivity|].
    cbn [option_map cset_mem pred].
    destruct (c =? newline)%N; cbn [negb]; [reflexivity|]. exact IH.
Qed.

Lemma link_on_line_text (t d : str) : link_on_line t = Some d -> d <> [].
Proof.
  intros H. pose proof (link_exact t t) as E. rewrite H in E.
  apply link_alt_captures in E as (c & d' & E).
  injection E as ->. discriminate.
Qed.

(** Only whitespace after a position: the link alternative does not match
    there, nor does the plain one at a line break. *)
Lemma link_on_blank (t : str) :
  forallb isspace t = true -> link_on_line t = None.
Proof.
  induction t as [|c t IH]; intros H.
  - reflexivity.
  - cbn [forallb] in H. apply andb_true_iff in H as [Hc Ht].
    cbn [link_on_line]. unfold link_here at 1. cbn [after_prefix].
    rewrite (space_not_quote c Hc).
    destruct (c =? newline)%N; [reflexivity|]. apply IH. exact Ht.
Qed.

Lemma first_line_blank (t : str) :
  forallb isspace t = true -> forallb isspace (first_line t) = true.
Proof.
  induction t as [|c t IH]; intros H; [reflexivity|].
  cbn [forallb] in H. apply andb_true_iff in H as [Hc Ht].
  cbn [first_line]. destruct (c =? newline)%N; [reflexivity|].
  cbn [forallb]. rewrite Hc. apply IH. exact Ht.
Qed.

Lemma plain_alt_newline (subject t : str) :
  match t with [] => True | c :: _ => (c =? newline)%N = true end ->
  rmatch subject target_plain_alt t [] accept = None.
Proof.
  intros H. unfold target_plain_alt. cbn [rmatch].
  destruct t as [|c t]; [reflexivity|].
  cbn [rep_greedy cset_mem]. rewrite H. reflexivity.
Qed.

(** The label followed by whitespace only: [\s*] gives back whitespace
    until the plain alternative finds a character that is not a line break,
    and takes the whitespace from there to the end of the line. *)
Lemma blank_rest (subject : str) :
  forall r,
    forallb isspace r = true ->
    match
      rep_greedy CSpace 0 r []
        (fun s' m' =>
           rmatch subject (RAlt target_link_alt target_plain_alt) s' m'
             accept)
    with
    | None => forallb (N.eqb newline) r = true
    | Some m =>
        forallb (N.eqb newline) r = false
        /\ exists c u, m = [(2%nat, c :: u)]
                       /\ forallb isspace (c :: u) = true
    end.
Proof.
  assert (Hk : forall t,
             forallb isspace t = true ->
             rmatch subject (RAlt target_link_alt target_plain_alt) t []
               accept
             = rmatch subject target_plain_alt t [] accept).
  { intros t Ht. cbn [rmatch]. rewrite link_exact, (link_on_blank t Ht).
    reflexivity. }
  induction r as [|x r IH]; intros H.
  - cbn [rep_greedy]. rewrite (Hk [] eq_refl).
    rewrite plain_alt_newline; [reflexivity|exact I].
  - pose proof H as Hxr. cbn [forallb] in H.
    apply andb_true_iff in H as [Hx Hr].
    cbn [rep_greedy cset_mem pred]. rewrite Hx.
    specialize (IH Hr).
    destruct (rep_greedy CSpace 0 r [] _) as [m|].
    + destruct IH as [Hn Hm]. split; [|exact Hm].
      cbn [forallb]. rewrite Hn. apply andb_false_r.
    + rewrite (Hk (x :: r) Hxr). cbn [forallb]. rewrite IH, andb_true_r.
      destruct (x =? newline)%N eqn:E.
      * rewrite plain_alt_newline; [|exact E].
        rewrite N.eqb_sym. exact E.
      * rewrite (plain_alt_line subject x r E). split.
        -- rewrite N.eqb_sym. exact E.
        -- pose proof (first_line_blank (x :: r) Hxr) as Hf.
           cbn [first_line] in *. rewrite E in *.
           exists x, (first_line r). split; [reflexivity|exact Hf].
Qed.

Lemma strip_blank (u : str) : forallb isspace u = true -> strip u = [].
Proof.
  intros H. unfold strip, strip_by.
  replace (lstrip_by isspace u) with (@nil char); [reflexivity|].
  induction u as [|c u IH]; [reflexivity|].
  cbn [forallb] in H. apply andb_true_iff in H as [Hc Hu].
  cbn [lstrip_by]. rewrite Hc. apply IH. exact Hu.
Qed.

(** *** The search *)

Lemma find_split (sub : str) :
  forall s n,
    find sub s = Some n ->
    exists pre rest, s = pre ++ sub ++ rest /\ length pre = n.
Proof.
  assert (Hp : forall p s r, after_prefix N.eqb p s = Some r -> s = p ++ r).
  { induction p as [|x p IH]; intros [|y s] r H; simpl in H;
      try discriminate; try (injection H as <-; reflexivity).
    destruct (N.eqb_spec x y); [|discriminate]. subst y.
    simpl. f_equal. apply IH. exact H. }
  induction s as [|c s IH]; intros n H; simpl in H.
  - destruct (after_prefix N.eqb sub []) as [r|] eqn:E; [|discriminate].
    injection H as <-. exists [], r. split; [|reflexivity].
    exact (Hp _ _ _ E).
  - destruct (after_prefix N.eqb sub (c :: s)) as [r|] eqn:E.
    + injection H as <-. exists [], r. split; [|reflexivity].
      exact (Hp _ _ _ E).
    + destruct (find sub s) as [n'|] eqn:F; [|discriminate].
      simpl in H. injection H as <-.
      destruct (IH n' eq_refl) as (pre & rest & -> & Hl).
      exists (c :: pre), rest. simpl. rewrite Hl. split; reflexivity.
Qed.

(** [search] tries the positions after the first occurrence of the label
    only when the rest of the pattern does not match there. *)
Lemma search_from_first_label (subject sub : str) (r : regex) (rest : str) :
  forall pre,
    find sub (pre ++ sub ++ rest) = Some (length pre) ->
    search_from subject (RSeq (RLit false sub) r) (pre ++ sub ++ rest)
    = match rmatch subject r rest [] accept with
      | Some m => Some m
      | None =>
          match sub ++ rest with
          | [] => None
          | _ :: s' => search_from subject (RSeq (RLit false sub) r) s'
          end
      end.
Proof.
  induction pre as [|c pre IH]; intros Hf.
  - simpl app. destruct (sub ++ rest) eqn:E;
      simpl; rewrite <- ?E; unfold eq_char;
      rewrite after_prefix_app; reflexivity.
  - simpl app in *. simpl in Hf. simpl. unfold eq_char.
    destruct (after_prefix N.eqb sub (c :: pre ++ sub ++ rest));
      [discriminate|].
    apply IH.
    destruct (find sub (pre ++ sub ++ rest)); simpl in Hf; congruence.
Qed.

Lemma find_label_newlines (r : str) :
  forallb (N.eqb newline) r = true -> find (lit "Target:") r = None.
Proof.
  induction r as [|c r IH]; intros H; [reflexivity|].
  cbn [forallb] in H. apply andb_true_iff in H as [Hc Hr].
  apply N.eqb_eq in Hc. subst c.
  change (find (lit "Target:") (newline :: r))
    with (option_map S (find (lit "Target:") r)).
  rewrite (IH Hr). reflexivity.
Qed.

Lemma find_label_tail (r : str) :
  forallb (N.eqb newline) r = true ->
  find (lit "Target:") (lit "arget:" ++ r) = None.
Proof.
  intros H.
  change (find (lit "Target:") (lit "arget:" ++ r))
    with (option_map S (option_map S (option_map S (option_map S
            (option_map S (option_map S (find (lit "Target:") r))))))).
  rewrite (find_label_newlines r H). reflexivity.
Qed.

Lemma skipn_label (pre rest : str) :
  skipn (length pre + 7) (pre ++ lit "Target:" ++ rest) = rest.
Proof.
  induction pre as [|c pre IH]; [reflexivity|]. exact IH.
Qed.

(** Method 2 finds the name that follows the first "Target:" of the body. *)
Lemma target_line_exact (st : Status) (text : str) :
  target_line None (Some st) text = target_line_name text.
Proof.
  unfold target_line, target_line_name.
  cbn [is_none is_some negb andb].
  unfold re_search. rewrite target_regex_parts.
  destruct (find (lit "Target:") text) as [n|] eqn:Hf.
  2:{ rewrite (search_from_no_label text (lit "Target:") _ text Hf).
      reflexivity. }
  destruct (find_split _ _ _ Hf) as (pre & r & Ht & Hn).
  subst n. rewrite Ht at 3. rewrite skipn_label.
  rewrite Ht in Hf. rewrite Ht at 2.
  rewrite (search_from_first_label text (lit "Target:") _ r pre Hf).
  unfold target_after_label.
  pose proof (take_while_lstrip isspace r) as Hr.
  pose proof (take_while_all isspace r) as Hws.
  destruct (lstrip_by isspace r) as [|c t] eqn:Hl.
  - (* whitespace only *)
    pose proof (blank_rest text r (lstrip_by_nil _ _ Hl)) as Hb.
    cbn [rmatch] in *.
    destruct (rep_greedy CSpace 0 r [] _) as [m|].
    + destruct Hb as [Hnl (c & u & -> & Hu)]. rewrite Hnl.
      cbn [group Nat.eqb py_or]. rewrite (strip_blank (c :: u) Hu).
      reflexivity.
    + rewrite Hb.
      change (lit "Target:" ++ r) with (84%N :: lit "arget:" ++ r).
      cbv beta iota.
      rewrite (search_from_no_label text (lit "Target:") _ _
                 (find_label_tail r Hb)).
      reflexivity.
  - (* a name *)
    pose proof (lstrip_by_head _ _ _ _ Hl) as Hc.
    pose proof (isspace_not_newline c Hc) as Hnl.
    assert (Hrest :
      rmatch text
        (RSeq (RRep true 0 CSpace) (RAlt target_link_alt target_plain_alt))
        r [] accept
      = Some (match link_on_line (c :: t) with
              | Some d => [(1%nat, d)]
              | None => [(2%nat, first_line (c :: t))]
              end)).
    { rewrite Hr. cbn [rmatch]. apply rep_greedy_run.
      - simpl. exact Hc.
      - rewrite link_exact.
        destruct (link_on_line (c :: t)); [reflexivity|].
        apply plain_alt_line. exact Hnl.
      - exact Hws.
      - lia. }
    rewrite Hrest.
    destruct (link_on_line (c :: t)) as [d|] eqn:El.
    + pose proof (link_on_line_text _ _ El) as Hd.
      destruct d as [|c0 d]; [contradiction|]. reflexivity.
    + cbn [group Nat.eqb py_or first_line]. rewrite Hnl. reflexivity.
Qed.

(** ** The three methods *)

Lemma title_wins (status : option Status) (bold : value) (t : str)
    (text : str) (es : list value) :
  title_target status bold = Ok (Some t) ->
  find_target status bold text es = Ok (Some t).
Proof. intros H. unfold find_target. rewrite H. reflexivity. Qed.

Lemma target_line_some (st : Status) (text : str) (t : str) :
  target_line None (Some st) text = Some t ->
  forall es, link_target (Some t) (Some st) es = Ok (Some t).
Proof. reflexivity. Qed.

Lemma first_link_find (es : list value) :
  Forall link_text_is_str es ->
  first_link es
  = Ok (option_map (fun x => strip (link_text x))
          (List.find suitable_link es)).
Proof.
  induction 1 as [|x es Hx _ IH]; [reflexivity|].
  cbn [first_link List.find]. unfold suitable_link at 1.
  destruct (has_type (lit "link") x) eqn:E; cbn [andb]; [|exact IH].
  destruct (Hx E) as [sx Hsx].
  assert (Hl : link_text x = sx) by (unfold link_text; rewrite Hsx; reflexivity).
  rewrite Hl, Hsx. cbn [py_in bind].
  destruct (contains [dot] sx); cbn [andb]; [|exact IH].
  destruct (contains [space] sx); cbn [negb]; [exact IH|].
  cbn [py_strip bind option_map]. rewrite Hl. reflexivity.
Qed.

Lemma find_target_chain (st : Status) (bold : value) (text : str)
    (es : list value) :
  find_target (Some st) bold text es =
    match title_target (Some st) bold with
    | Raise e => Raise e
    | Ok (Some t) => Ok (Some t)
    | Ok None =>
        match target_line None (Some st) text with
        | Some t => Ok (Some t)
        | None => first_link es
        end
    end.
Proof.
  unfold find_target.
  destruct (title_target (Some st) bold) as [[t|]|e]; try reflexivity.
  simpl bind.
  destruct (target_line None (Some st) text) as [t|] eqn:E.
  - reflexivity.
  - unfold link_target. simpl.
    destruct (first_link es) as [[t|]|e]; reflexivity.
Qed.

Lemma clean_up_none (status : option Status) (dt : Z) :
  clean_up None status dt = None.
Proof. reflexivity. Qed.

(** The bold text that set the status holds a phrase: it is not empty. *)
Lemma scan_status_bold (es : list value) (st : Status) (bold : value) :
  scan_status es = Ok (Some st, bold) ->
  exists c p, py_in (c :: p) bold = Ok true.
Proof.
  induction es as [|x es IH]; intros H; [discriminate|].
  cbn [scan_status] in H.
  destruct (has_type (lit "bold") x); [|exact (IH H)].
  destruct (py_in (lit "is now UP") (entity_text x)) as [[|]|e] eqn:E1;
    cbn [bind] in H; [| |discriminate].
  { injection H as _ <-. exists 105%N, (lit "s now UP"). exact E1. }
  destruct (py_in (lit "is now DOWN") (entity_text x)) as [[|]|e] eqn:E2;
    cbn [bind] in H; [| |discriminate].
  { injection H as _ <-. exists 105%N, (lit "s now DOWN"). exact E2. }
  destruct (py_in (lit "is still DOWN") (entity_text x)) as [[|]|e] eqn:E3;
    cbn [bind] in H; [| |discriminate].
  { injection H as _ <-. exists 105%N, (lit "s still DOWN"). exact E3. }
  exact (IH H).
Qed.

Lemma py_in_truthy (c : char) (p : str) (v : value) :
  py_in (c :: p) v = Ok true -> truthy v = true.
Proof.
  destruct v as [| | | |s|l|d]; try discriminate.
  - destruct s; [discriminate|reflexivity].
  - destruct l; [discriminate|reflexivity].
  - destruct d; [discriminate|reflexivity].
Qed.

(** Method 1 is the title parse of the bold text. *)
Lemma title_target_parse (st : Status) (bold : value) :
  truthy bold = true -> title_target (Some st) bold = title_parse bold.
Proof.
  intros H. destruct bold as [| | | |s|l|d];
    try (unfold title_target; cbn [is_some is_none negb andb];
         rewrite H; reflexivity).
  apply title_target_exact.
Qed.

(** C1.  Once a status is set, the name comes from three methods tried in
    order.  (a) The title parse of the bold text that set the status: the
    text before the first whitespace that a status phrase follows, on the
    first line, trimmed.  (b) The target-line parse of the body: what
    follows the first "Target:" of the body.  (c) The first link whose text
    has a "." and no space.  The result is that of the first method that
    finds something, the later ones are not run (so neither their result
    nor an exception of theirs shows); when none finds anything no event
    is appended. *)
Theorem resolution_priority (msg : value) (dt : Z) (text : str)
    (es : list value) (st : Status) (bold : value) :
  Eligible py_repr msg dt text es ->
  scan_status es = Ok (Some st, bold) ->
  let resolved :=
    match title_parse bold with
    | Raise e => Raise e
    | Ok (Some t) => Ok (Some t)
    | Ok None =>
        match target_line_name text with
        | Some t => Ok (Some t)
        | None => first_link es
        end
    end in
  find_target (Some st) bold text es = resolved
  /\ process_message py_repr msg =
       match resolved with
       | Raise e => Raise e
       | Ok (Some t) => Ok (clean_up (Some t) (Some st) dt)
       | Ok None => Ok None
       end
  /\ (Forall link_text_is_str es ->
       first_link es
       = Ok (option_map (fun x => strip (link_text x))
               (List.find suitable_link es)))
  /\ title_target (Some st) bold = title_parse bold
  /\ target_line None (Some st) text = target_line_name text.
Proof.
  intros Hel Hscan resolved.
  assert (Ha : title_target (Some st) bold = title_parse bold).
  { destruct (scan_status_bold es st bold Hscan) as (c & p & Hin).
    apply title_target_parse. exact (py_in_truthy c p bold Hin). }
  assert (Hf : find_target (Some st) bold text es = resolved).
  { rewrite find_target_chain, Ha, target_line_exact. reflexivity. }
  split; [exact Hf|]. split; [|split; [|split]].
  - rewrite (eligible_process _ _ _ _ Hel), Hscan. cbn [bind fst snd].
    rewrite Hf. destruct resolved as [[t|]|e]; reflexivity.
  - apply first_link_find.
  - exact Ha.
  - apply target_line_exact.
Qed.

(** C10.  When the bold text that set the status is whitespace followed by
    a status phrase, the title parse matches and captures the empty name:
    methods 2 and 3, which run only when the title parse found no match,
    are not run whatever the body and the entities hold, and no event is
    appended. *)
Theorem blank_title_drops_message (msg : value) (dt : Z) (text : str)
    (es : list value) (st : Status) (ws p rest : str) :
  Eligible py_repr msg dt text es ->
  scan_status es = Ok (Some st, VStr (ws ++ p ++ rest)) ->
  ws <> [] ->
  forallb isspace ws = true ->
  is_status_phrase p ->
  title_target (Some st) (VStr (ws ++ p ++ rest)) = Ok (Some [])
  /\ (forall text' es',
        find_target (Some st) (VStr (ws ++ p ++ rest)) text' es'
        = Ok (Some []))
  /\ process_message py_repr msg = Ok None.
Proof.
  intros Hel Hscan Hne Hws Hp.
  assert (Ht : title_target (Some st) (VStr (ws ++ p ++ rest))
               = Ok (Some [])).
  { unfold title_target.
    replace (truthy (VStr (ws ++ p ++ rest))) with true
      by (destruct ws; [contradiction|reflexivity]).
    simpl. rewrite (title_match_blank ws p rest Hne Hws Hp). reflexivity. }
  split; [exact Ht|]. split.
  - intros text' es'. apply title_wins. exact Ht.
  - rewrite (eligible_process _ _ _ _ Hel), Hscan. simpl.
    rewrite (title_wins _ _ _ text es Ht). reflexivity.
Qed.

(** ** Normalization *)

Lemma rstrip_by_all (p : char -> bool) (v : str) :
  forallb p v = true -> rstrip_by p v = [].
Proof.
  induction v as [|c v IH]; simpl; [reflexivity|].
  intros H. apply andb_true_iff in H as [Hc Hv].
  rewrite (IH Hv), Hc. reflexivity.
Qed.

Lemma rstrip_by_app (p : char -> bool) (u v : str) :
  forallb p v = true -> rstrip_by p (u ++ v) = rstrip_by p u.
Proof.
  intros Hv. induction u as [|c u IH]; simpl.
  - apply rstrip_by_all. exact Hv.
  - rewrite IH. reflexivity.
Qed.

Lemma rstrip_by_last (p : char -> bool) (u : str) (c : char) :
  p c = false -> rstrip_by p (u ++ [c]) = u ++ [c].
Proof.
  intros Hc. induction u as [|x u IH]; simpl.
  - rewrite Hc. reflexivity.
  - rewrite IH. destruct (u ++ [c]) eqn:E; [|reflexivity].
    destruct u; discriminate.
Qed.

(** [rstrip("/")] removes every trailing slash, not one. *)
Lemma rstrip_slash_all (u : str) (c : char) (n : nat) :
  c <> slash -> rstrip_slash (u ++ [c] ++ repeat slash n) = u ++ [c].
Proof.
  intros Hc. unfold rstrip_slash. rewrite app_assoc, rstrip_by_app.
  - apply rstrip_by_last. apply N.eqb_neq. congruence.
  - induction n; simpl; [reflexivity|exact IHn].
Qed.

Lemma clean_up_some (t : str) (st : Status) (dt : Z) :
  clean_up (Some t) (Some st) dt =
    match normalize t with
    | [] => None
    | name => Some (mkEvent name st dt)
    end.
Proof. destruct t; reflexivity. Qed.

(** C3, as amended.  The service of the event is the resolved name with
    every trailing slash removed, then each run of whitespace collapsed to
    one space, then trimmed; when that is the empty string no event is
    appended. *)
Theorem service_is_normalized_name (msg : value) (dt : Z) (text : str)
    (es : list value) (st : Status) (bold : value) (t : str) :
  Eligible py_repr msg dt text es ->
  scan_status es = Ok (Some st, bold) ->
  find_target (Some st) bold text es = Ok (Some t) ->
  process_message py_repr msg =
    Ok (match strip (collapse_ws (rstrip_slash t)) with
        | [] => None
        | name => Some (mkEvent name st dt)
        end)
  /\ (forall u c n, c <> slash ->
        rstrip_slash (u ++ [c] ++ repeat slash n) = u ++ [c])
  /\ (forall n, rstrip_slash (repeat slash n) = []).
Proof.
  intros Hel Hscan Hfind. split; [|split].
  - rewrite (eligible_process _ _ _ _ Hel), Hscan. cbn [bind fst snd].
    rewrite Hfind. cbn [bind]. rewrite clean_up_some. reflexivity.
  - intros u c n Hc. apply rstrip_slash_all. exact Hc.
  - intros n. apply rstrip_by_all. induction n; simpl; auto.
Qed.

(** ** Status *)




(** ** The sort *)

Lemma insert_by_time_perm (e : Event) (l : list Event) :
  Permutation (e :: l) (insert_by_time e l).
Proof.
  induction l as [|x l IH]; simpl; [apply Permutation_refl|].
  destruct (time e <=? time x)%Z; [apply Permutation_refl|].
  eapply perm_trans; [apply perm_swap|]. apply perm_skip. exact IH.
Qed.

Lemma sort_by_time_perm (l : list Event) : Permutation l (sort_by_time l).
Proof.
  induction l as [|e l IH]; simpl; [constructor|].
  eapply perm_trans; [apply perm_skip; exact IH|].
  apply insert_by_time_perm.
Qed.

Lemma insert_by_time_sorted (e : Event) (l : list Event) :
  StronglySorted time_le l -> StronglySorted time_le (insert_by_time e l).
Proof.
  induction 1 as [|x l Hl IH Hx]; simpl.
  - constructor; constructor.
  - destruct (time e <=? time x)%Z eqn:E.
    + apply Z.leb_le in E. constructor.
      * constructor; assumption.
      * constructor; [exact E|].
        eapply Forall_impl; [|exact Hx].
        unfold time_le. intros a Ha. lia.
    + apply Z.leb_gt in E. constructor; [exact IH|].
      eapply Permutation_Forall; [apply insert_by_time_perm|].
      constructor; [unfold time_le; lia|exact Hx].
Qed.

Lemma sort_by_time_sorted (l : list Event) :
  StronglySorted time_le (sort_by_time l).
Proof.
  induction l as [|e l IH]; simpl; [constructor|].
  apply insert_by_time_sorted. exact IH.
Qed.

Lemma insert_by_time_at_time (t : Z) (e : Event) (l : list Event) :
  at_time t (insert_by_time e l) = at_time t (e :: l).
Proof.
  induction l as [|x l IH]; [reflexivity|].
  simpl insert_by_time. destruct (time e <=? time x)%Z eqn:E; [reflexivity|].
  apply Z.leb_gt in E.
  unfold at_time in *. simpl in *. rewrite IH.
  destruct (time e =? t)%Z eqn:Et; [|reflexivity].
  apply Z.eqb_eq in Et.
  replace (time x =? t)%Z with false; [reflexivity|].
  symmetry. apply Z.eqb_neq. lia.
Qed.

Lemma sort_by_time_stable (t : Z) (l : list Event) :
  at_time t (sort_by_time l) = at_time t l.
Proof.
  induction l as [|e l IH]; [reflexivity|].
  simpl sort_by_time. rewrite insert_by_time_at_time.
  unfold at_time in *. simpl. rewrite IH. reflexivity.
Qed.

Lemma collect_events_of (msgs : list value) :
  forall events extracted,
    collect py_repr events msgs = Ok extracted ->
    extracted = events ++ flat_map (events_of py_repr) msgs.
Proof.
  induction msgs as [|m msgs IH]; intros events extracted H; simpl in *.
  - rewrite app_nil_r. congruence.
  - unfold events_of at 1.
    destruct (process_message py_repr m) as [[e|]|x]; simpl in H.
    + rewrite (IH _ _ H), <- app_assoc. reflexivity.
    + exact (IH _ _ H).
    + discriminate.
Qed.

Lemma sorted_list_of_loop (msgs : list value) (events : list Event) :
  (extracted <- collect py_repr [] msgs ;; Ok (sort_by_time extracted))
  = Ok events ->
  StronglySorted time_le events
  /\ Permutation (flat_map (events_of py_repr) msgs) events
  /\ forall t,
       at_time t events = at_time t (flat_map (events_of py_repr) msgs).
Proof.
  intros H.
  destruct (collect py_repr [] msgs) as [extracted|e] eqn:E; [|discriminate].
  simpl in H. injection H as <-.
  apply collect_events_of in E. simpl in E. subst extracted.
  split; [|split].
  - apply sort_by_time_sorted.
  - apply sort_by_time_perm.
  - intros t. apply sort_by_time_stable.
Qed.

(** C7.  The list returned is sorted by time, non-decreasing, for messages
    in any order; it holds the events the loop appended, message after
    message, and events of the same time keep the order in which they were
    appended. *)
Theorem extract_events_sorted_stable (messages : value)
    (events : list Event) :
  extract_events py_repr messages = Ok events ->
  StronglySorted time_le events
  /\ forall msgs,
       py_iter messages = Ok msgs ->
       Permutation (flat_map (events_of py_repr) msgs) events
       /\ forall t,
            at_time t events
            = at_time t (flat_map (events_of py_repr) msgs).
Proof.
  intros H.
  destruct messages as [| | | |s|l|d]; simpl in H; try discriminate.
  - injection H as <-. split; [constructor|]. discriminate.
  - destruct (sorted_list_of_loop _ _ H) as (H1 & H2 & H3).
    split; [exact H1|]. intros msgs Hm. simpl in Hm. injection Hm as <-.
    split; assumption.
  - destruct (sorted_list_of_loop _ _ H) as (H1 & H2 & H3).
    split; [exact H1|]. intros msgs Hm. simpl in Hm. injection Hm as <-.
    split; assumption.
  - destruct (sorted_list_of_loop _ _ H) as (H1 & H2 & H3).
    split; [exact H1|]. intros msgs Hm. simpl in Hm. injection Hm as <-.
    split; assumption.
Qed.

(** The loop appends what [events_of] lists when no message raises. *)
Lemma extract_events_returns (msgs : list value) :
  Forall (fun m => exists r, process_message py_repr m = Ok r) msgs ->
  extract_events py_repr (VList msgs)
  = Ok (sort_by_time (flat_map (events_of py_repr) msgs)).
Proof.
  intros H. simpl.
  assert (G : forall events,
             collect py_repr events msgs
             = Ok (events ++ flat_map (events_of py_repr) msgs)).
  { induction H as [|m msgs [r Hr] _ IH]; intros events; simpl.
    - rewrite app_nil_r. reflexivity.
    - unfold events_of at 1. rewrite Hr. simpl. rewrite IH.
      destruct r; [rewrite <- app_assoc|]; reflexivity. }
  rewrite G. reflexivity.
Qed.

(** ** The target line *)

Lemma item_text_body_line (item : value) :
  item_text py_repr item = Ok (body_line py_repr item).
Proof.
  destruct item as [| | | | |l|d]; try reflexivity.
  simpl. unfold dict_has, dict_item.
  destruct (dict_lookup (lit "text") d); reflexivity.
Qed.

Lemma join_items_lines (items : list value) :
  forall text_content,
    join_items py_repr text_content items
    = Ok (text_content ++ flat_map (body_line py_repr) items).
Proof.
  induction items as [|item items IH]; intros text_content; simpl.
  - rewrite app_nil_r. reflexivity.
  - rewrite item_text_body_line. simpl. rewrite IH, <- app_assoc.
    reflexivity.
Qed.



(** *** When normalizing again changes nothing *)

Lemma spaced_collapse (u : str) :
  forall b, spaced b (collapse_from b u) = true.
Proof.
  induction u as [|c u IH]; intros b; simpl; [reflexivity|].
  destruct (isspace c) eqn:E.
  - destruct b; [apply IH|]. simpl. apply (IH true).
  - simpl. rewrite E. apply IH.
Qed.

Lemma collapse_spaced (s : str) :
  forall b, spaced b s = true -> collapse_from b s = s.
Proof.
  induction s as [|c s IH]; intros b; simpl; [reflexivity|].
  destruct (isspace c).
  - intros H. apply andb_true_iff in H as [H Hs].
    apply andb_true_iff in H as [Hc Hb].
    destruct b; [discriminate|]. apply N.eqb_eq in Hc. subst c.
    rewrite (IH true Hs). reflexivity.
  - intros H. rewrite (IH false H). reflexivity.
Qed.

Lemma spaced_weaken (s : str) : spaced true s = true -> spaced false s = true.
Proof.
  destruct s as [|c s]; simpl; [reflexivity|].
  destruct (isspace c); [|auto]. rewrite andb_false_r. discriminate.
Qed.

Lemma spaced_lstrip (s : str) :
  forall b, spaced b s = true -> spaced true (lstrip_by isspace s) = true.
Proof.
  induction s as [|c s IH]; intros b; simpl; [reflexivity|].
  destruct (isspace c) eqn:E.
  - intros H. apply andb_true_iff in H as [_ Hs]. apply (IH true Hs).
  - intros H. simpl. rewrite E. exact H.
Qed.

Lemma spaced_rstrip (s : str) :
  forall b, spaced b s = true -> spaced b (rstrip_by isspace s) = true.
Proof.
  induction s as [|c s IH]; intros b H; simpl in *; [reflexivity|].
  destruct (isspace c) eqn:E.
  - apply andb_true_iff in H as [H Hs]. specialize (IH true Hs).
    destruct (rstrip_by isspace s) as [|x r]; [reflexivity|].
    cbn [spaced]. rewrite E, H. exact IH.
  - specialize (IH false H).
    destruct (rstrip_by isspace s) as [|x r]; cbn [spaced]; rewrite E;
      [reflexivity|exact IH].
Qed.

Lemma rstrip_by_idem (p : char -> bool) (s : str) :
  rstrip_by p (rstrip_by p s) = rstrip_by p s.
Proof.
  induction s as [|c s IH]; simpl; [reflexivity|].
  destruct (rstrip_by p s) as [|x r] eqn:E.
  - destruct (p c) eqn:Ec; simpl; [reflexivity|rewrite Ec; reflexivity].
  - cbn [rstrip_by] in *. cbn [rstrip_by]. rewrite IH. reflexivity.
Qed.

Lemma lstrip_spaced (s : str) :
  spaced true s = true -> lstrip_by isspace s = s.
Proof.
  destruct s as [|c s]; simpl; [reflexivity|].
  destruct (isspace c); [|reflexivity].
  rewrite andb_false_r. discriminate.
Qed.

(** X10.  A normalized name that does not end with a slash is its own normal
    form. *)
Lemma normalize_idempotent_without_slash (s : str) :
  rstrip_slash (normalize s) = normalize s ->
  normalize (normalize s) = normalize s.
Proof.
  intros Hslash. unfold normalize at 1. rewrite Hslash.
  unfold normalize, strip, strip_by, collapse_ws.
  set (x := collapse_from false (rstrip_slash s)).
  assert (Hx : spaced false x = true) by apply spaced_collapse.
  assert (Hy : spaced true (lstrip_by isspace x) = true)
    by (apply (spaced_lstrip x false); exact Hx).
  set (t := rstrip_by isspace (lstrip_by isspace x)).
  assert (Ht : spaced true t = true) by (apply spaced_rstrip; exact Hy).
  rewrite (collapse_spaced t false (spaced_weaken t Ht)).
  rewrite (lstrip_spaced t Ht). apply rstrip_by_idem.
Qed.

(** *** Where nothing is raised *)

Lemma title_captures (s : str) (m : captures) :
  re_match title_regex s = Some m -> exists g, m = [(1%nat, g)].
Proof.
  unfold re_match, title_regex. simpl rseq. cbn [rmatch].
  rewrite Nat.eqb_refl. intros H.
  apply rep_lazy_sound in H as (u & s1 & _ & _ & H).
  apply rep_greedy_sound in H as (_ & s2 & _ & _ & H).
  unfold status_phrases in H. cbn [rmatch] in H. unfold accept in H.
  exists (firstn (length s - length s1) s).
  destruct (after_prefix (eq_char true) (lit "is now UP") s2);
    [injection H as <-; reflexivity|].
  destruct (after_prefix (eq_char true) (lit "is now DOWN") s2);
    [injection H as <-; reflexivity|].
  destruct (after_prefix (eq_char true) (lit "is still DOWN") s2);
    [injection H as <-; reflexivity|discriminate].
Qed.

Lemma title_target_returns (status : option Status) (s : str) :
  exists r, title_target status (VStr s) = Ok r.
Proof.
  unfold title_target.
  destruct (is_some status && truthy (VStr s)); [|eexists; reflexivity].
  destruct (re_match title_regex s) as [m|] eqn:E; [|eexists; reflexivity].
  destruct (title_captures s m E) as [g ->]. eexists. reflexivity.
Qed.

Lemma scan_status_returns (es : list value) :
  Forall (fun x => exists s, entity_text x = VStr s) es ->
  exists status bold,
    scan_status es = Ok (status, bold)
    /\ (bold = VNone /\ status = None \/ exists s, bold = VStr s).
Proof.
  induction 1 as [|x es [s Hs] _ IH]; simpl.
  - exists None, VNone. auto.
  - destruct (has_type (lit "bold") x); [|exact IH].
    rewrite Hs. simpl.
    destruct (contains (lit "is now UP") s); [eauto 6|].
    destruct (contains (lit "is now DOWN") s); [eauto 6|].
    destruct (contains (lit "is still DOWN") s); [eauto 6|exact IH].
Qed.

Lemma join_items_returns (items : list value) (text_content : str) :
  exists t, join_items py_repr text_content items = Ok t.
Proof. rewrite join_items_lines. eexists. reflexivity. Qed.

Lemma parse_timestamp_returns (d : list (str * value)) :
  dict_has (lit "date_unixtime") d = true ->
  timestamp_converts (VDict d) ->
  exists r, parse_timestamp d = Ok r.
Proof.
  unfold dict_has, timestamp_converts, parse_timestamp, dict_item.
  intros Hhas H.
  destruct (dict_lookup (lit "date_unixtime") d) as [v|] eqn:Ev;
    [|discriminate].
  specialize (H d v eq_refl Ev). simpl.
  destruct (py_int v) as [n|e]; simpl.
  - unfold fromtimestamp.
    assert (Hlo : (- 2 ^ 63 <= gmtime_min)%Z) by (vm_compute; discriminate).
    assert (Hhi : (gmtime_max < 2 ^ 63)%Z) by reflexivity.
    replace ((n <? - 2 ^ 63) || (2 ^ 63 <=? n))%Z with false
      by (symmetry; apply orb_false_iff; split;
          [apply Z.ltb_ge|apply Z.leb_gt]; lia).
    replace ((n <? gmtime_min) || (gmtime_max <? n))%Z with false
      by (symmetry; apply orb_false_iff; split; apply Z.ltb_ge; lia).
    destruct ((n <? datetime_min) || (datetime_max <? n))%Z;
      eexists; reflexivity.
  - destruct H as [-> | ->]; eexists; reflexivity.
Qed.

(** A message with a timestamp the platform converts and with string texts
    in its entities ends its turn of the loop without an exception. *)
Lemma process_message_returns (msg : value) :
  timestamp_converts msg ->
  texts_are_strings msg ->
  exists r, process_message py_repr msg = Ok r.
Proof.
  intros Hts Htx. unfold process_message.
  destruct (unexpected_format msg) eqn:Ef; [eexists; reflexivity|].
  destruct msg as [| | | | |l|d]; try (eexists; reflexivity).
  assert (Hhas : dict_has (lit "date_unixtime") d = true).
  { simpl in Ef. apply orb_false_iff in Ef as [_ Ef].
    apply negb_false_iff. exact Ef. }
  destruct (parse_timestamp_returns d Hhas Hts) as [[dt|] ->]; simpl;
    [|eexists; reflexivity].
  unfold extract_event.
  assert (Hb : exists t, build_text_content py_repr
                           (dict_get (lit "text") (VStr []) d) = Ok t).
  { destruct (dict_get (lit "text") (VStr []) d); simpl;
      try (eexists; reflexivity).
    rewrite join_items_lines. eexists. reflexivity. }
  destruct Hb as [[text|] ->]; simpl; [|eexists; reflexivity].
  destruct (dict_get (lit "text_entities") (VList []) d) as [| | | | |es|]
    eqn:Ee; try (eexists; reflexivity).
  specialize (Htx d es eq_refl Ee).
  destruct (scan_status_returns es Htx) as (status & bold & -> & Hbold).
  cbn [bind]. unfold find_target.
  assert (Ht : exists r, title_target status bold = Ok r).
  { destruct Hbold as [[-> ->] | [s ->]].
    - eexists. reflexivity.
    - apply title_target_returns. }
  destruct Ht as [target ->]. cbn [bind]. unfold link_target.
  destruct (is_none _ && is_some status); [|eexists; reflexivity].
  rewrite first_link_find.
  - eexists. reflexivity.
  - eapply Forall_impl; [|exact Htx]. intros x Hx _. exact Hx.
Qed.

(** X9.  On such messages [extract_events] returns the sorted list. *)
Lemma extract_events_total (msgs : list value) :
  Forall timestamp_converts msgs ->
  Forall texts_are_strings msgs ->
  extract_events py_repr (VList msgs)
  = Ok (sort_by_time (flat_map (events_of py_repr) msgs)).
Proof.
  intros Hts Htx. apply extract_events_returns.
  rewrite Forall_forall in *. intros m Hm.
  apply process_message_returns; auto.
Qed.

(** ** Where the code leaves its intent *)

(** C2.  Normalizing the name "a/ /" gives "a/", and normalizing "a/" gives
    "a": the slashes are removed before the whitespace is trimmed, so a
    slash that the trimming uncovers stays, and the service of the event
    still ends with a slash. *)
Theorem normalize_twice_differs :
  normalize (lit "a/ /") = lit "a/"
  /\ normalize (normalize (lit "a/ /")) = lit "a"
  /\ process_message py_repr
       (message (VStr (lit "1700000000")) (VStr [])
          [entity "bold" "a/ / is now UP"])
     = Ok (Some (mkEvent (lit "a/") UP 1700000000)).
Proof. repeat split; vm_compute; reflexivity. Qed.

(** C4.  An exception leaves [extract_events] on a timestamp that does not
    fit the platform's time, [OverflowError] or [OSError], which the
    [except] clause of the timestamp does not name, and on a bold entity
    whose text is not a string, [TypeError]; the absent input [None] gives
    the empty list. *)
Theorem exceptions_escape :
  extract_events py_repr
    (VList [message (VStr (lit "100000000000000000000")) (VStr []) []])
  = Raise OverflowError
  /\ extract_events py_repr
       (VList [message (VInt 1000000000000000000) (VStr []) []])
     = Raise OSError
  /\ extract_events py_repr
       (VList [message (VStr (lit "1700000000")) (VStr [])
                 [bold_without_text]])
     = Raise TypeError
  /\ extract_events py_repr VNone = Ok [].
Proof. repeat split; vm_compute; reflexivity. Qed.

End ExtractorProperties.

(** ** The intervals *)

Lemma fold_min_le (l : list Event) :
  forall acc,
    (fold_left (fun a e => Z.min a (instant e)) l acc <= acc)%Z
    /\ forall e, In e l ->
         (fold_left (fun a e => Z.min a (instant e)) l acc <= instant e)%Z.
Proof.
  induction l as [|x l IH]; intros acc; simpl.
  - split; [lia|contradiction].
  - destruct (IH (Z.min acc (instant x))) as [H1 H2]. split; [lia|].
    intros e [<- | He]; [lia|]. apply H2. exact He.
Qed.

Lemma min_instant_le (first : Event) (rest : list Event) (e : Event) :
  In e (first :: rest) -> (min_instant first rest <= instant e)%Z.
Proof.
  unfold min_instant. destruct (fold_min_le rest (instant first)) as [H1 H2].
  intros [<- | He]; [exact H1|]. apply H2. exact He.
Qed.

Lemma plot_range_start (first : Event) (rest : list Event)
    (start stop : Z) :
  plot_range first rest = Ok (start, stop) ->
  (start < min_instant first rest)%Z.
Proof.
  unfold plot_range, datetime_add.
  set (padding := if (times_0_02 _ <? five_minutes)%Z then five_minutes
                  else times_0_02 _).
  assert (Hp : (five_minutes <= padding)%Z).
  { unfold padding.
    destruct (times_0_02 _ <? five_minutes)%Z eqn:E; [lia|].
    apply Z.ltb_ge in E. exact E. }
  unfold five_minutes in Hp.
  destruct (_ || _)%bool; [discriminate|]. simpl.
  destruct (_ || _)%bool; [discriminate|]. simpl.
  intros H. injection H as <- _. lia.
Qed.

Lemma insert_service_in (x s : str) (l : list str) :
  In x (insert_service s l) -> x = s \/ In x l.
Proof.
  induction l as [|y l IH]; simpl.
  - intros [<- | []]. left. reflexivity.
  - destruct (str_eqb s y); [auto|].
    destruct (str_ltb s y); simpl.
    + intros [<- | H]; auto.
    + intros [<- | H]; [auto|]. destruct (IH H); auto.
Qed.

Lemma sorted_set_in (x : str) (names : list str) :
  In x (sorted_set names) -> In x names.
Proof.
  induction names as [|s names IH]; simpl; [auto|].
  intros H. apply insert_service_in in H as [-> | H]; auto.
Qed.

Lemma enumerate_in {A} (l : list A) :
  forall i j x, In (j, x) (enumerate i l) -> In x l.
Proof.
  induction l as [|y l IH]; intros i j x; simpl; [auto|].
  intros [H | H]; [left; congruence|right; eapply IH; exact H].
Qed.

(** The first bar of a row starts with the chart, ends at the first event
    of the service and has the colour of the state opposite to it. *)
Lemma plot_service_first_bar (i : nat) (start stop : Z) (first : Event)
    (rest : list Event) :
  (start < instant first)%Z ->
  exists more,
    plot_service i start stop (first :: rest)
    = mkBar i start (instant first - start)
        (colour_of (initial_status first)) :: more.
Proof.
  intros H. unfold plot_service. cbn [plot_events].
  replace (start <? instant first)%Z with true
    by (symmetry; apply Z.ltb_lt; exact H).
  replace (0 <? instant first - start)%Z with true
    by (symmetry; apply Z.ltb_lt; lia).
  destruct (plot_events i (instant first) (status first) rest)
    as [bars final].
  eexists. simpl. reflexivity.
Qed.

Section RendererProperties.

Variable py_lower : str -> str.

(** C9.  In every row of the chart the state before the first event of the
    service is the opposite of the status of that event, DOWN when it is UP
    and UP otherwise: the row starts with a bar of that state's colour, from
    the start of the chart to the first event. *)
Theorem initial_state_is_opposite (events : list Event)
    (selected_services : list str) (first0 : Event) (rest0 : list Event)
    (start stop : Z) :
  filter_events py_lower events selected_services = first0 :: rest0 ->
  plot_range first0 rest0 = Ok (start, stop) ->
  create_gantt_chart py_lower events selected_services
  = Ok (plot_rows (first0 :: rest0)
          (sorted_set (map service (first0 :: rest0))) start stop)
  /\ forall i label,
       In (i, label)
          (enumerate 0 (sorted_set (map service (first0 :: rest0)))) ->
       exists first rest more,
         filter (fun e => str_eqb (service e) label) (first0 :: rest0)
         = first :: rest
         /\ plot_service i start stop (first :: rest)
            = mkBar i start (instant first - start)
                (colour_of (initial_status first)) :: more
         /\ initial_status first
            = match status first with UP => DOWN | DOWN => UP end.
Proof.
  intros Hf Hr. split.
  - unfold create_gantt_chart. rewrite Hf, Hr.
    destruct (sorted_set (map service (first0 :: rest0))); reflexivity.
  - intros i label Hin.
    apply enumerate_in, sorted_set_in, in_map_iff in Hin
      as (e & He & Hin).
    assert (Hsel : In e (filter (fun e => str_eqb (service e) label)
                           (first0 :: rest0))).
    { apply filter_In. split; [exact Hin|].
      rewrite He. apply str_eqb_refl. }
    destruct (filter (fun e => str_eqb (service e) label) (first0 :: rest0))
      as [|first rest] eqn:E; [contradiction|].
    assert (Hfirst : In first (first0 :: rest0)).
    { assert (H : In first (first :: rest)) by (left; reflexivity).
      rewrite <- E in H. apply filter_In in H as [H _]. exact H. }
    pose proof (plot_range_start first0 rest0 start stop Hr) as Hs.
    pose proof (min_instant_le first0 rest0 first Hfirst) as Hm.
    destruct (plot_service_first_bar i start stop first rest) as [more Hb];
      [lia|].
    exists first, rest, more. repeat split.
    + exact Hb.
    + unfold initial_status. destruct (status first); reflexivity.
Qed.

End RendererProperties.

(** * Examples *)

Example title_example :
  option_map (group 1) (re_match title_regex (lit "example.com is now DOWN"))
  = Some (Some (lit "example.com")).
Proof. reflexivity. Qed.

(** The bold title names the service although the body has a target line,
    which names another text, and the entities a link. *)
Lemma resolution_priority_example :
  Eligible repr_unused msg_title_and_target 1700000000
    (lit "Target: [example.com](http://example.com)")
    [entity "bold" "example.com is now DOWN"; entity "link" "example.com"]
  /\ process_message repr_unused msg_title_and_target
     = Ok (Some (mkEvent (lit "example.com") DOWN 1700000000))
  /\ title_target (Some DOWN) (VStr (lit "example.com is now DOWN"))
     = Ok (Some (lit "example.com"))
  /\ target_line None (Some DOWN)
       (lit "Target: [example.com](http://example.com)")
     = Some (lit "[example.com](http://example.com)")
  /\ first_link
       [entity "bold" "example.com is now DOWN"; entity "link" "example.com"]
     = Ok (Some (lit "example.com")).
Proof.
  assert (Hel : Eligible repr_unused msg_title_and_target 1700000000
            (lit "Target: [example.com](http://example.com)")
            [entity "bold" "example.com is now DOWN";
             entity "link" "example.com"])
    by (constructor; reflexivity).
  destruct (resolution_priority repr_unused msg_title_and_target 1700000000
              (lit "Target: [example.com](http://example.com)")
              [entity "bold" "example.com is now DOWN";
               entity "link" "example.com"]
              DOWN (VStr (lit "example.com is now DOWN")) Hel eq_refl)
    as (_ & H2 & H3 & H4 & H5).
  split; [exact Hel|]. split; [|split; [|split]].
  - rewrite H2. reflexivity.
  - rewrite H4. reflexivity.
  - rewrite H5. reflexivity.
  - rewrite H3; [reflexivity|].
    repeat constructor; intros _; eexists; reflexivity.
Defined.

(** No title, a target line and a link: the target line names the
    service.  No title and no target line: the link does. *)
Example target_line_before_link_example :
  process_message repr_unused msg_target_and_link
  = Ok (Some (mkEvent (lit "foo.com") DOWN 1700000000))
  /\ process_message repr_unused msg_link_only
     = Ok (Some (mkEvent (lit "svc.org") DOWN 1700000300))
  /\ process_message repr_unused msg_status_only = Ok None.
Proof. repeat split; reflexivity. Qed.

(** A bold text with no name before the phrase: the link names the
    service. *)
Example link_fallback_example :
  process_message repr_unused msg_link_only
  = Ok (Some (mkEvent (lit "svc.org") DOWN 1700000300)).
Proof. reflexivity. Qed.

Lemma service_is_normalized_name_example :
  Eligible repr_unused msg_trailing_slash 1700000000 []
    [entity "bold" "example.com/ is now UP"]
  /\ find_target (Some UP) (VStr (lit "example.com/ is now UP")) []
       [entity "bold" "example.com/ is now UP"]
     = Ok (Some (lit "example.com/"))
  /\ process_message repr_unused msg_trailing_slash
     = Ok (Some (mkEvent (lit "example.com") UP 1700000000)).
Proof.
  assert (Hel : Eligible repr_unused msg_trailing_slash 1700000000 []
            [entity "bold" "example.com/ is now UP"])
    by (constructor; reflexivity).
  split; [exact Hel|]. split; [reflexivity|].
  rewrite (proj1 (service_is_normalized_name repr_unused msg_trailing_slash
                    1700000000 [] [entity "bold" "example.com/ is now UP"]
                    UP (VStr (lit "example.com/ is now UP"))
                    (lit "example.com/") Hel eq_refl eq_refl)).
  reflexivity.
Defined.

(** The name "a//" loses its two slashes; stripping one would leave
    "a/". *)
Lemma one_trailing_slash_counterexample :
  find_target (Some UP) (VStr (lit "a// is now UP")) []
    [entity "bold" "a// is now UP"]
  = Ok (Some (lit "a//"))
  /\ process_message repr_unused msg_two_slashes
     = Ok (Some (mkEvent (lit "a") UP 1700000000))
  /\ normalize_one_slash (lit "a//") = lit "a/"
  /\ lit "a" <> normalize_one_slash (lit "a//").
Proof. repeat split; try reflexivity. vm_compute. discriminate. Qed.




(** Two messages, the later one first, and a third at the time of the
    first. *)
Lemma extract_events_sorted_stable_example :
  extract_events repr_unused
    (VList [msg_link_only; msg_title_and_target; msg_trailing_slash])
  = Ok [mkEvent (lit "example.com") DOWN 1700000000;
        mkEvent (lit "example.com") UP 1700000000;
        mkEvent (lit "svc.org") DOWN 1700000300]
  /\ StronglySorted time_le
       [mkEvent (lit "example.com") DOWN 1700000000;
        mkEvent (lit "example.com") UP 1700000000;
        mkEvent (lit "svc.org") DOWN 1700000300]
  /\ at_time 1700000000
       [mkEvent (lit "example.com") DOWN 1700000000;
        mkEvent (lit "example.com") UP 1700000000;
        mkEvent (lit "svc.org") DOWN 1700000300]
     = at_time 1700000000
         (flat_map (events_of repr_unused)
            [msg_link_only; msg_title_and_target; msg_trailing_slash]).
Proof.
  assert (H : extract_events repr_unused
                (VList [msg_link_only; msg_title_and_target;
                        msg_trailing_slash])
              = Ok [mkEvent (lit "example.com") DOWN 1700000000;
                    mkEvent (lit "example.com") UP 1700000000;
                    mkEvent (lit "svc.org") DOWN 1700000300])
    by reflexivity.
  destruct (extract_events_sorted_stable repr_unused _ _ H) as [H1 H2].
  split; [exact H|]. split; [exact H1|].
  apply (H2 [msg_link_only; msg_title_and_target; msg_trailing_slash]).
  reflexivity.
Defined.

Lemma other_sender_no_event_example :
  sender msg_other_sender <> VStr (lit "HetrixTools")
  /\ process_message repr_unused msg_other_sender = Ok None.
Proof.
  assert (H : sender msg_other_sender <> VStr (lit "HetrixTools"))
    by (vm_compute; discriminate).
  split; [exact H|].
  exact (proj1 (other_sender_no_event repr_unused msg_other_sender H)).
Defined.

Lemma blank_title_drops_message_example :
  title_target (Some UP) (VStr (lit " is now UP")) = Ok (Some [])
  /\ process_message repr_unused msg_blank_title = Ok None.
Proof.
  destruct (blank_title_drops_message repr_unused msg_blank_title
              1700000000 (lit "Target: example.com")
              [entity "bold" " is now UP"; entity "link" "svc.org"]
              UP [space] (lit "is now UP") [])
    as (H1 & _ & H3).
  - constructor; reflexivity.
  - reflexivity.
  - discriminate.
  - reflexivity.
  - left. reflexivity.
  - split; [exact H1|exact H3].
Defined.

(** One service, up then down ten minutes later: the row starts five
    minutes before the first event with the colour of DOWN. *)
Lemma initial_state_is_opposite_example :
  create_gantt_chart ascii_lower
    [mkEvent (lit "alpha") UP 1700000000;
     mkEvent (lit "beta") UP 1700000300;
     mkEvent (lit "alpha") DOWN 1700000600]
    [lit "Alpha/"]
  = Ok [mkBar 0 1699999700000000 300000000 lightcoral;
        mkBar 0 1700000000000000 600000000 mediumseagreen;
        mkBar 0 1700000600000000 300000000 lightcoral].
Proof.
  destruct (initial_state_is_opposite ascii_lower
              [mkEvent (lit "alpha") UP 1700000000;
               mkEvent (lit "beta") UP 1700000300;
               mkEvent (lit "alpha") DOWN 1700000600]
              [lit "Alpha/"]
              (mkEvent (lit "alpha") UP 1700000000)
              [mkEvent (lit "alpha") DOWN 1700000600]
              1699999700000000 1700000900000000 eq_refl eq_refl)
    as [H _].
  rewrite H. reflexivity.
Defined.

(** * Further properties *)

(** ** The loader *)

(** X1.  [parse_hetrix_log] returns the value under "messages" exactly when the
    file holds a JSON object with that key; for every other file (missing,
    unreadable, not JSON, another JSON value, an object without the key) it
    prints one error and returns [None].  No exception leaves it. *)
Theorem parse_hetrix_log_object_with_key (file : file_state) :
  (exists d messages,
      file = Loaded (VDict d)
      /\ dict_lookup (lit "messages") d = Some messages
      /\ parse_hetrix_log file = (None, messages))
  \/ (exists r,
        parse_hetrix_log file = (Some r, VNone)
        /\ forall d, file = Loaded (VDict d) ->
                     dict_lookup (lit "messages") d = None).
Proof.
  destruct file as [| | |data];
    try (right; eexists; split; [reflexivity|discriminate]).
  destruct data as [| | | |s|l|d]; simpl;
    try (right; eexists; split; [reflexivity|discriminate]).
  - right. unfold messages_of. simpl.
    destruct (contains (lit "messages") s); simpl;
      eexists; (split; [reflexivity|discriminate]).
  - right. unfold messages_of. simpl.
    destruct (existsb _ l); simpl;
      eexists; (split; [reflexivity|discriminate]).
  - unfold messages_of. simpl. unfold dict_has, dict_item.
    destruct (dict_lookup (lit "messages") d) as [v|] eqn:E; simpl.
    + left. exists d, v. auto.
    + right. eexists. split; [reflexivity|].
      intros d' H. injection H as <-. exact E.
Qed.

(** ** More on the loop of [extract_events] *)

Section ExtractorInvariants.

Variable py_repr : value -> str.

Lemma collect_all_skipped (msgs : list value) :
  Forall (fun m => process_message py_repr m = Ok None) msgs ->
  forall events, collect py_repr events msgs = Ok events.
Proof.
  induction 1 as [|m msgs Hm _ IH]; intros events; simpl; [reflexivity|].
  rewrite Hm. simpl. apply IH.
Qed.

(** X2.  Given a string or an object instead of a list of messages the loop runs
    over characters or keys, none of which is a message: the result is the
    empty list.  A number or a boolean is not iterable: [TypeError]. *)
Theorem extract_events_of_other_values :
  (forall s, extract_events py_repr (VStr s) = Ok [])
  /\ (forall d, extract_events py_repr (VDict d) = Ok [])
  /\ (forall z, extract_events py_repr (VInt z) = Raise TypeError)
  /\ (forall b, extract_events py_repr (VBool b) = Raise TypeError)
  /\ (forall f, extract_events py_repr (VFloat f) = Raise TypeError).
Proof.
  repeat split; try reflexivity.
  - intros s. simpl. rewrite collect_all_skipped; [reflexivity|].
    apply Forall_forall. intros m Hm.
    apply in_map_iff in Hm as (c & <- & _). reflexivity.
  - intros d. simpl. rewrite collect_all_skipped; [reflexivity|].
    apply Forall_forall. intros m Hm.
    apply in_map_iff in Hm as (kv & <- & _). reflexivity.
Qed.

Lemma fromtimestamp_range (n dt : Z) :
  fromtimestamp n = Ok dt ->
  dt = n /\ (datetime_min <= n <= datetime_max)%Z.
Proof.
  unfold fromtimestamp.
  destruct (_ || _)%bool; [discriminate|].
  destruct (_ || _)%bool; [discriminate|].
  destruct ((n <? datetime_min) || (datetime_max <? n))%Z eqn:E;
    [discriminate|].
  apply orb_false_iff in E as [E1 E2].
  apply Z.ltb_ge in E1. apply Z.ltb_ge in E2.
  intros H. injection H as <-. split; [reflexivity|lia].
Qed.

Lemma parse_timestamp_range (d : list (str * value)) (dt : Z) :
  parse_timestamp d = Ok (Some dt) ->
  (datetime_min <= dt <= datetime_max)%Z.
Proof.
  unfold parse_timestamp.
  destruct (dict_item (lit "date_unixtime") d) as [v|e]; simpl.
  - destruct (py_int v) as [n|e]; simpl.
    + destruct (fromtimestamp n) as [dt'|e] eqn:E.
      * intros H. injection H as <-.
        apply fromtimestamp_range in E as [-> E]. exact E.
      * destruct e; discriminate.
    + destruct e; discriminate.
  - destruct e; discriminate.
Qed.

Lemma normalize_tidy (target : str) :
  collapse_ws (normalize target) = normalize target
  /\ strip (normalize target) = normalize target.
Proof.
  unfold normalize, strip, strip_by, collapse_ws.
  set (x := collapse_from false (rstrip_slash target)).
  assert (Hx : spaced false x = true) by apply spaced_collapse.
  assert (Hy : spaced true (lstrip_by isspace x) = true)
    by (apply (spaced_lstrip x false); exact Hx).
  set (t := rstrip_by isspace (lstrip_by isspace x)).
  assert (Ht : spaced true t = true) by (apply spaced_rstrip; exact Hy).
  split.
  - apply collapse_spaced, spaced_weaken. exact Ht.
  - rewrite (lstrip_spaced t Ht). apply rstrip_by_idem.
Qed.

(** What an event appended by a turn of the loop is made of. *)
Lemma process_message_event (msg : value) (e : Event) :
  process_message py_repr msg = Ok (Some e) ->
  exists d target,
    msg = VDict d
    /\ sender msg = VStr (lit "HetrixTools")
    /\ parse_timestamp d = Ok (Some (time e))
    /\ service e = normalize target
    /\ normalize target <> [].
Proof.
  unfold process_message.
  destruct (unexpected_format msg) eqn:Ef; [discriminate|].
  destruct msg as [| | | | |l|d]; try discriminate.
  assert (Hs : sender (VDict d) = VStr (lit "HetrixTools")).
  { simpl in *. apply orb_false_iff in Ef as [Ef _].
    apply orb_false_iff in Ef as [Ef _].
    apply negb_false_iff, eq_str_true in Ef. exact Ef. }
  destruct (parse_timestamp d) as [[dt|]|x] eqn:Et; simpl;
    try discriminate.
  unfold extract_event.
  destruct (build_text_content py_repr _) as [[text|]|x]; simpl;
    try discriminate.
  destruct (dict_get (lit "text_entities") (VList []) d);
    try discriminate.
  destruct (scan_status l) as [[st bold]|x]; simpl; try discriminate.
  destruct (find_target st bold text l) as [target|x]; simpl;
    try discriminate.
  unfold clean_up.
  destruct target as [[|c t]|]; try discriminate.
  destruct st as [st|]; try discriminate.
  destruct (normalize (c :: t)) as [|c' name] eqn:En; try discriminate.
  intros H. injection H as <-. simpl.
  exists d, (c :: t). rewrite En. repeat split; try assumption.
  discriminate.
Qed.

Lemma collect_ok_forall (msgs : list value) :
  forall events extracted,
    collect py_repr events msgs = Ok extracted ->
    Forall (fun m => exists r, process_message py_repr m = Ok r) msgs.
Proof.
  induction msgs as [|m msgs IH]; intros events extracted H;
    [constructor|].
  simpl in H. destruct (process_message py_repr m) as [r|x] eqn:E;
    [|discriminate].
  constructor; [eauto|]. simpl in H. eapply IH. exact H.
Qed.

Lemma events_of_in (msgs : list value) (e : Event) :
  In e (flat_map (events_of py_repr) msgs) ->
  exists m, In m msgs /\ process_message py_repr m = Ok (Some e).
Proof.
  intros H. apply in_flat_map in H as (m & Hm & He).
  exists m. split; [exact Hm|]. unfold events_of in He.
  destruct (process_message py_repr m) as [[e'|]|x]; try contradiction.
  destruct He as [<- | []]. reflexivity.
Qed.

(** The events of a returned list come from the messages iterated. *)
Lemma extract_events_in (messages : value) (events : list Event)
    (e : Event) :
  extract_events py_repr messages = Ok events ->
  In e events ->
  exists msgs m,
    py_iter messages = Ok msgs /\ In m msgs
    /\ process_message py_repr m = Ok (Some e).
Proof.
  intros H Hin.
  assert (G : forall msgs,
             py_iter messages = Ok msgs ->
             (extracted <- collect py_repr [] msgs ;;
              Ok (sort_by_time extracted)) = Ok events ->
             exists msgs m,
               py_iter messages = Ok msgs /\ In m msgs
               /\ process_message py_repr m = Ok (Some e)).
  { intros msgs Hi Hc.
    destruct (sorted_list_of_loop py_repr msgs events Hc) as (_ & Hp & _).
    apply Permutation_sym in Hp.
    apply (Permutation_in _ Hp) in Hin.
    apply events_of_in in Hin as (m & Hm & He). eauto. }
  destruct messages as [| | | |s|l|d]; simpl in H; try discriminate.
  - injection H as <-. contradiction.
  - eapply G; [reflexivity|exact H].
  - eapply G; [reflexivity|exact H].
  - eapply G; [reflexivity|exact H].
Qed.

(** X3.  Every event returned has a service that is not empty and that the
    whitespace steps of the normalization leave as it is (no blank at its
    ends, single spaces inside), and a time within the years 1 to 9999. *)
Theorem extract_events_well_formed (messages : value)
    (events : list Event) :
  extract_events py_repr messages = Ok events ->
  Forall (fun e =>
            service e <> []
            /\ collapse_ws (service e) = service e
            /\ strip (service e) = service e
            /\ (datetime_min <= time e <= datetime_max)%Z)
         events.
Proof.
  intros H. apply Forall_forall. intros e He.
  destruct (extract_events_in messages events e H He)
    as (msgs & m & _ & _ & Hp).
  destruct (process_message_event m e Hp) as (d & target & _ & _ & Ht & -> & Hn).
  destruct (normalize_tidy target) as [H1 H2].
  repeat split; try assumption.
  - apply (parse_timestamp_range d). exact Ht.
  - apply (parse_timestamp_range d). exact Ht.
Qed.

(** Every event returned comes from a message sent by "HetrixTools". *)
Theorem extract_events_only_expected_sender (messages : value)
    (events : list Event) (e : Event) :
  extract_events py_repr messages = Ok events ->
  In e events ->
  exists msgs m,
    py_iter messages = Ok msgs /\ In m msgs
    /\ sender m = VStr (lit "HetrixTools")
    /\ process_message py_repr m = Ok (Some e).
Proof.
  intros H He.
  destruct (extract_events_in messages events e H He)
    as (msgs & m & Hi & Hm & Hp).
  destruct (process_message_event m e Hp) as (d & target & _ & Hs & _).
  exists msgs, m. auto.
Qed.

End ExtractorInvariants.

Section ExtractorBehaviour.

Variable py_repr : value -> str.

(** X4.  A message whose timestamp is not a number ([int] raises [ValueError] or
    [TypeError]), or is a number the platform converts but outside the years
    1 to 9999, is skipped, whatever else it holds. *)
Theorem invalid_timestamp_skipped (d : list (str * value)) (v : value) :
  dict_lookup (lit "date_unixtime") d = Some v ->
  match py_int v with
  | Ok n => (gmtime_min <= n <= gmtime_max)%Z
            /\ (n < datetime_min \/ datetime_max < n)%Z
  | Raise e => e = ValueError \/ e = TypeError
  end ->
  process_message py_repr (VDict d) = Ok None.
Proof.
  intros Hv H. unfold process_message.
  destruct (unexpected_format (VDict d)); [reflexivity|].
  unfold parse_timestamp, dict_item. rewrite Hv. simpl.
  destruct (py_int v) as [n|e]; simpl.
  - destruct H as [Hg Hd]. unfold fromtimestamp.
    assert (Hlo : (- 2 ^ 63 <= gmtime_min)%Z) by (vm_compute; discriminate).
    assert (Hhi : (gmtime_max < 2 ^ 63)%Z) by reflexivity.
    replace ((n <? - 2 ^ 63) || (2 ^ 63 <=? n))%Z with false
      by (symmetry; apply orb_false_iff; split;
          [apply Z.ltb_ge|apply Z.leb_gt]; lia).
    replace ((n <? gmtime_min) || (gmtime_max <? n))%Z with false
      by (symmetry; apply orb_false_iff; split; apply Z.ltb_ge; lia).
    replace ((n <? datetime_min) || (datetime_max <? n))%Z with true;
      [reflexivity|].
    symmetry. apply orb_true_iff.
    destruct Hd; [left|right]; apply Z.ltb_lt; assumption.
  - destruct H as [-> | ->]; reflexivity.
Qed.

Lemma sort_by_time_sorted_id (l : list Event) :
  StronglySorted time_le l -> sort_by_time l = l.
Proof.
  induction 1 as [|e l Hl IH He]; [reflexivity|].
  simpl. rewrite IH. destruct l as [|x l]; [reflexivity|].
  simpl. inversion He as [|? ? Hx _]; subst.
  unfold time_le in Hx. apply Z.leb_le in Hx. rewrite Hx. reflexivity.
Qed.

(** X5.  When no message raises and the events come in chronological order
    already, the list returned is the events in the order of their
    messages: the sort moves nothing. *)
Theorem chronological_input_keeps_order (msgs : list value) :
  Forall (fun m => exists r, process_message py_repr m = Ok r) msgs ->
  StronglySorted time_le (flat_map (events_of py_repr) msgs) ->
  extract_events py_repr (VList msgs)
  = Ok (flat_map (events_of py_repr) msgs).
Proof.
  intros Hok Hs. rewrite (extract_events_returns py_repr msgs Hok).
  rewrite (sort_by_time_sorted_id _ Hs). reflexivity.
Qed.

Lemma sorted_perm_unique (l1 : list Event) :
  forall l2,
    StronglySorted time_le l1 ->
    StronglySorted time_le l2 ->
    Permutation l1 l2 ->
    NoDup (map time l1) ->
    l1 = l2.
Proof.
  induction l1 as [|a l1 IH]; intros l2 H1 H2 Hp Hn.
  - apply Permutation_nil in Hp. subst. reflexivity.
  - destruct l2 as [|b l2].
    { apply Permutation_sym, Permutation_nil in Hp. discriminate. }
    inversion H1 as [|? ? H1' Ha]; subst.
    inversion H2 as [|? ? H2' Hb]; subst.
    assert (Hab : a = b).
    { assert (Hin_b : In b (a :: l1))
        by (eapply Permutation_in; [apply Permutation_sym; exact Hp|];
            left; reflexivity).
      assert (Hin_a : In a (b :: l2))
        by (eapply Permutation_in; [exact Hp|]; left; reflexivity).
      destruct Hin_b as [E | Hin_b]; [exact E|].
      destruct Hin_a as [E | Hin_a]; [symmetry; exact E|].
      rewrite Forall_forall in Ha, Hb.
      pose proof (Ha b Hin_b) as Le1. pose proof (Hb a Hin_a) as Le2.
      unfold time_le in *. exfalso.
      simpl in Hn. inversion Hn as [|? ? Hnotin _]; subst.
      apply Hnotin. apply in_map_iff. exists b. split; [lia|exact Hin_b]. }
    subst b. f_equal. apply IH; try assumption.
    + eapply Permutation_cons_inv. exact Hp.
    + simpl in Hn. inversion Hn. assumption.
Qed.

(** X6.  The order of the messages does not matter when no two events have the
    same time: the messages in another order give the same list. *)
Theorem message_order_irrelevant (msgs msgs' : list value)
    (events : list Event) :
  extract_events py_repr (VList msgs) = Ok events ->
  Permutation msgs msgs' ->
  NoDup (map time events) ->
  extract_events py_repr (VList msgs') = Ok events.
Proof.
  intros H Hp Hn. simpl in H.
  destruct (collect py_repr [] msgs) as [extracted|x] eqn:E;
    [|discriminate].
  simpl in H. injection H as <-.
  pose proof (collect_ok_forall py_repr msgs [] extracted E) as Hok.
  apply (collect_events_of py_repr) in E. simpl in E. subst extracted.
  assert (Hok' : Forall (fun m => exists r, process_message py_repr m = Ok r)
                   msgs')
    by (eapply Permutation_Forall; eassumption).
  rewrite (extract_events_returns py_repr msgs' Hok'). f_equal.
  symmetry. apply sorted_perm_unique.
  - apply sort_by_time_sorted.
  - apply sort_by_time_sorted.
  - eapply perm_trans; [apply Permutation_sym, sort_by_time_perm|].
    eapply perm_trans; [|apply sort_by_time_perm].
    apply Permutation_flat_map. exact Hp.
  - exact Hn.
Qed.

End ExtractorBehaviour.

(** ** More on the three methods *)

Lemma rep_lazy_skip (cs : cset) (k : cont) (m : captures) (rest : str) :
  forall u,
    forallb (cset_mem cs) u = true ->
    (forall a b, u = a ++ b -> b <> [] -> k (b ++ rest) m = None) ->
    rep_lazy cs 0 (u ++ rest) m k = rep_lazy cs 0 rest m k.
Proof.
  induction u as [|c u IH]; intros Hall Hk; [reflexivity|].
  simpl in Hall. apply andb_true_iff in Hall as [Hc Hall].
  simpl app. cbn [rep_lazy].
  assert (H0 : k (c :: u ++ rest) m = None)
    by (apply (Hk [] (c :: u) eq_refl); discriminate).
  rewrite H0, Hc. cbn [pred]. apply IH; [exact Hall|].
  intros a b -> Hb. apply (Hk (c :: a) b eq_refl Hb).
Qed.

Lemma rep_greedy_back_one (cs : cset) (k : cont) (m r : captures)
    (c : char) :
  cset_mem cs c = true ->
  k [] m = None ->
  k [c] m = Some r ->
  forall u,
    forallb (cset_mem cs) u = true ->
    rep_greedy cs 0 (u ++ [c]) m k = Some r.
Proof.
  intros Hc H0 H1. induction u as [|x u IH]; intros Hall; simpl.
  - rewrite Hc, H0. exact H1.
  - simpl in Hall. apply andb_true_iff in Hall as [Hx Hall].
    rewrite Hx, (IH Hall). reflexivity.
Qed.

Lemma rstrip_by_prefix (p : char -> bool) (s : str) :
  exists v, s = rstrip_by p s ++ v.
Proof.
  induction s as [|c s [v Hv]]; simpl; [exists []; reflexivity|].
  destruct (rstrip_by p s) as [|x r].
  - destruct (p c); [exists (c :: s)|exists s]; reflexivity.
  - exists v. simpl. f_equal. exact Hv.
Qed.

Lemma rstrip_by_none (p : char -> bool) (s : str) :
  forallb (fun c => negb (p c)) s = true -> rstrip_by p s = s.
Proof.
  induction s as [|c s IH]; simpl; [reflexivity|].
  intros H. apply andb_true_iff in H as [Hc Hs].
  rewrite (IH Hs). apply negb_true_iff in Hc. rewrite Hc.
  destruct s; reflexivity.
Qed.

Lemma nospace_spaced (s : str) :
  forall b,
    forallb (fun c => negb (isspace c)) s = true -> spaced b s = true.
Proof.
  induction s as [|c s IH]; intros b; simpl; [reflexivity|].
  intros H. apply andb_true_iff in H as [Hc Hs].
  apply negb_true_iff in Hc. rewrite Hc. apply IH. exact Hs.
Qed.

Lemma nospace_strip (s : str) :
  forallb (fun c => negb (isspace c)) s = true -> strip s = s.
Proof.
  intros H. unfold strip, strip_by.
  rewrite (lstrip_spaced s (nospace_spaced s true H)).
  apply rstrip_by_none. exact H.
Qed.

(** A name without whitespace is normalized by removing its trailing
    slashes. *)
Lemma nospace_normalize (name : str) :
  forallb (fun c => negb (isspace c)) name = true ->
  normalize name = rstrip_slash name.
Proof.
  intros H. unfold normalize.
  assert (Hr : forallb (fun c => negb (isspace c)) (rstrip_slash name)
               = true).
  { destruct (rstrip_by_prefix (N.eqb slash) name) as [v Hv].
    unfold rstrip_slash. rewrite Hv in H.
    rewrite forallb_app in H. apply andb_true_iff in H as [H _]. exact H. }
  unfold collapse_ws.
  rewrite (collapse_spaced _ false (nospace_spaced _ false Hr)).
  apply nospace_strip. exact Hr.
Qed.

Lemma title_match_name (name ws p rest : str) :
  forallb (fun c => negb (isspace c)) name = true ->
  ws <> [] -> forallb isspace ws = true -> is_status_phrase p ->
  re_match title_regex (name ++ ws ++ p ++ rest) = Some [(1%nat, name)].
Proof.
  intros Hname Hne Hws Hp. unfold re_match, title_regex. simpl rseq.
  cbn [rmatch]. rewrite Nat.eqb_refl. rewrite rep_lazy_skip.
  - apply rep_lazy_now. rewrite firstn_app_length.
    apply rep_greedy_run.
    + destruct Hp as [-> | [-> | ->]]; reflexivity.
    + apply status_phrases_match. exact Hp.
    + exact Hws.
    + destruct ws; [contradiction|simpl; lia].
  - clear -Hname. induction name as [|c name IH]; [reflexivity|].
    simpl in *. apply andb_true_iff in Hname as [Hc Hname].
    rewrite (IH Hname), andb_true_r.
    apply negb_true_iff in Hc. apply isspace_not_newline in Hc.
    rewrite Hc. reflexivity.
  - intros a b Hab Hb. destruct b as [|c b]; [contradiction|].
    assert (Hc : isspace c = false).
    { rewrite Hab, forallb_app in Hname.
      apply andb_true_iff in Hname as [_ Hname]. simpl in Hname.
      apply andb_true_iff in Hname as [Hc _].
      apply negb_true_iff. exact Hc. }
    simpl. rewrite Hc. reflexivity.
Qed.

Section Methods.

Variable py_repr : value -> str.

(** X7.  A bold title made of a name without whitespace, blanks and a status
    phrase names the service: the event has the name without its trailing
    slashes, whatever the body and the other entities hold; a name made of
    slashes only gives no event. *)
Theorem title_names_service (msg : value) (dt : Z) (text : str)
    (es : list value) (st : Status) (name ws p rest : str) :
  Eligible py_repr msg dt text es ->
  scan_status es = Ok (Some st, VStr (name ++ ws ++ p ++ rest)) ->
  forallb (fun c => negb (isspace c)) name = true ->
  ws <> [] ->
  forallb isspace ws = true ->
  is_status_phrase p ->
  process_message py_repr msg
  = Ok (match rstrip_slash name with
        | [] => None
        | n => Some (mkEvent n st dt)
        end).
Proof.
  intros Hel Hscan Hname Hne Hws Hp.
  assert (Ht : title_target (Some st) (VStr (name ++ ws ++ p ++ rest))
               = Ok (Some name)).
  { unfold title_target.
    replace (truthy (VStr (name ++ ws ++ p ++ rest))) with true
      by (destruct name; [destruct ws; [contradiction|]|]; reflexivity).
    simpl. rewrite (title_match_name name ws p rest Hname Hne Hws Hp).
    simpl. rewrite (nospace_strip name Hname). reflexivity. }
  rewrite (eligible_process py_repr _ _ _ _ Hel), Hscan. cbn [bind fst snd].
  rewrite (title_wins _ _ _ text es Ht). cbn [bind].
  rewrite clean_up_some, (nospace_normalize name Hname). reflexivity.
Qed.

Lemma blank_is_not_quote (c : char) :
  isspace c = true -> (quote =? c)%N = false.
Proof.
  intros H. destruct (quote =? c)%N eqn:E; [|reflexivity].
  apply N.eqb_eq in E. subst c. discriminate.
Qed.

Lemma target_line_blank (st : Status) (pre ws : str) (c : char) :
  find (lit "Target:") (pre ++ lit "Target:" ++ ws ++ [c])
  = Some (length pre) ->
  forallb isspace ws = true ->
  isspace c = true ->
  (c =? newline)%N = false ->
  target_line None (Some st) (pre ++ lit "Target:" ++ ws ++ [c]) = Some [].
Proof.
  intros Hfind Hws Hc Hnl.
  set (text := pre ++ lit "Target:" ++ ws ++ [c]) in *.
  unfold target_line. cbn [is_none is_some negb andb].
  unfold re_search. rewrite target_regex_parts.
  assert (Hrest :
    rmatch text
      (RSeq (RRep true 0 CSpace) (RAlt target_link_alt target_plain_alt))
      (ws ++ [c]) [] accept
    = Some [(2%nat, [c])]).
  { cbn [rmatch]. apply rep_greedy_back_one.
    - exact Hc.
    - reflexivity.
    - unfold target_link_alt, target_plain_alt. simpl rseq.
      cbn [rmatch rep_lazy rep_greedy after_prefix eq_char cset_mem pred].
      rewrite (blank_is_not_quote c Hc), Hnl. reflexivity.
    - exact Hws. }
  unfold text at 2.
  rewrite (search_from_label text (lit "Target:") _ (ws ++ [c]) _
             Hrest pre Hfind).
  simpl. unfold strip, strip_by. simpl. rewrite Hc. reflexivity.
Qed.

(** X8.  When the title names nothing and the first "Target:" of the body is
    followed by blanks only, up to the end of the body, method 2 keeps an
    empty name: method 3 is not run, and the message gives no event even if
    it has a suitable link. *)
Theorem blank_target_line_drops_message (msg : value) (dt : Z)
    (es : list value) (st : Status) (bold : value) (pre ws : str)
    (c : char) :
  Eligible py_repr msg dt (pre ++ lit "Target:" ++ ws ++ [c]) es ->
  scan_status es = Ok (Some st, bold) ->
  title_target (Some st) bold = Ok None ->
  find (lit "Target:") (pre ++ lit "Target:" ++ ws ++ [c])
  = Some (length pre) ->
  forallb isspace ws = true ->
  isspace c = true ->
  (c =? newline)%N = false ->
  find_target (Some st) bold (pre ++ lit "Target:" ++ ws ++ [c]) es
  = Ok (Some [])
  /\ process_message py_repr msg = Ok None.
Proof.
  intros Hel Hscan Ht Hfind Hws Hc Hnl.
  assert (Hf : find_target (Some st) bold
                 (pre ++ lit "Target:" ++ ws ++ [c]) es = Ok (Some [])).
  { unfold find_target. rewrite Ht. cbn [bind].
    rewrite (target_line_blank st pre ws c Hfind Hws Hc Hnl). reflexivity. }
  split; [exact Hf|].
  rewrite (eligible_process py_repr _ _ _ _ Hel), Hscan. cbn [bind fst snd].
  rewrite Hf. reflexivity.
Qed.

End Methods.

(** ** More on the intervals *)

Lemma plot_events_positive (i : nat) (evs : list Event) :
  forall last_time last_status,
    Forall (fun b => (0 < width b)%Z /\ row b = i)
      (fst (plot_events i last_time last_status evs)).
Proof.
  induction evs as [|e evs IH]; intros last_time last_status;
    cbn [plot_events]; [constructor|].
  specialize (IH (instant e) (status e)).
  destruct (plot_events i (instant e) (status e) evs) as [bars final].
  cbn [fst] in *. apply Forall_app. split; [|exact IH].
  destruct (last_time <? instant e)%Z; [|constructor].
  destruct (0 <? instant e - last_time)%Z eqn:E; [|constructor].
  apply Z.ltb_lt in E. constructor; [|constructor]. simpl. auto.
Qed.

Lemma plot_service_positive (i : nat) (start stop : Z) (evs : list Event) :
  Forall (fun b => (0 < width b)%Z /\ row b = i)
    (plot_service i start stop evs).
Proof.
  unfold plot_service. destruct evs as [|first rest]; [constructor|].
  pose proof (plot_events_positive i (first :: rest) start
                (initial_status first)) as H.
  destruct (plot_events i start (initial_status first) (first :: rest))
    as [bars [t s]].
  cbn [fst] in H. apply Forall_app. split; [exact H|].
  unfold plot_tail. destruct (t <? stop)%Z; [|constructor].
  destruct (0 <? stop - t)%Z eqn:E; [|constructor].
  apply Z.ltb_lt in E. constructor; [|constructor]. simpl. auto.
Qed.

Lemma enumerate_index {A} (l : list A) :
  forall i j x,
    In (j, x) (enumerate i l) -> (i <= j < i + length l)%nat.
Proof.
  induction l as [|y l IH]; intros i j x; simpl; [contradiction|].
  intros [H | H].
  - injection H as <- _. lia.
  - apply IH in H. lia.
Qed.

Lemma tiles_app (bars1 bars2 : list Bar) :
  forall from mid to,
    tiles from mid bars1 -> tiles mid to bars2 ->
    tiles from to (bars1 ++ bars2).
Proof.
  induction bars1 as [|b bars1 IH]; intros from mid to H1 H2; simpl in *.
  - subst. exact H2.
  - destruct H1 as (Hl & Hw & H1). repeat split; try assumption.
    eapply IH; eassumption.
Qed.

(** The loop over events in chronological order draws bars that tile the
    time from its start to the last event, and stops in the state of that
    event. *)
Lemma plot_events_tiles (i : nat) (evs : list Event) :
  forall last_time last_status,
    StronglySorted instant_le evs ->
    Forall (fun e => (last_time <= instant e)%Z) evs ->
    tiles last_time (fst (snd (plot_events i last_time last_status evs)))
      (fst (plot_events i last_time last_status evs))
    /\ (last_time
        <= fst (snd (plot_events i last_time last_status evs)))%Z.
Proof.
  induction evs as [|e evs IH]; intros last_time last_status Hs Hl;
    cbn [plot_events].
  - simpl. split; [reflexivity|lia].
  - inversion Hs as [|? ? Hs' He]; subst.
    inversion Hl as [|? ? Hle _]; subst.
    destruct (IH (instant e) (status e) Hs' He) as [Ht Hge].
    destruct (plot_events i (instant e) (status e) evs) as [bars final].
    cbn [fst snd] in *. split; [|lia].
    destruct (last_time <? instant e)%Z eqn:E.
    + apply Z.ltb_lt in E.
      replace (0 <? instant e - last_time)%Z with true
        by (symmetry; apply Z.ltb_lt; lia).
      simpl. repeat split; [lia|].
      replace (last_time + (instant e - last_time))%Z with (instant e)
        by lia.
      exact Ht.
    + apply Z.ltb_ge in E. assert (instant e = last_time) by lia.
      simpl. congruence.
Qed.

Lemma plot_events_final (i : nat) (evs : list Event) :
  forall last_time last_status,
    snd (plot_events i last_time last_status evs)
    = match rev evs with
      | last :: _ => (instant last, status last)
      | [] => (last_time, last_status)
      end.
Proof.
  induction evs as [|e evs IH]; intros last_time last_status;
    cbn [plot_events]; [reflexivity|].
  specialize (IH (instant e) (status e)).
  destruct (plot_events i (instant e) (status e) evs) as [bars final].
  cbn [snd] in *. rewrite IH. simpl.
  destruct (rev evs) as [|x r]; reflexivity.
Qed.

Lemma fold_max_ge (l : list Event) :
  forall acc,
    (acc <= fold_left (fun a e => Z.max a (instant e)) l acc)%Z
    /\ forall e, In e l ->
         (instant e <= fold_left (fun a e => Z.max a (instant e)) l acc)%Z.
Proof.
  induction l as [|x l IH]; intros acc; simpl.
  - split; [lia|contradiction].
  - destruct (IH (Z.max acc (instant x))) as [H1 H2]. split; [lia|].
    intros e [<- | He]; [lia|]. apply H2. exact He.
Qed.

Lemma max_instant_ge (first : Event) (rest : list Event) (e : Event) :
  In e (first :: rest) -> (instant e <= max_instant first rest)%Z.
Proof.
  unfold max_instant. destruct (fold_max_ge rest (instant first)) as [H1 H2].
  intros [<- | He]; [exact H1|]. apply H2. exact He.
Qed.

Lemma plot_range_stop (first : Event) (rest : list Event)
    (start stop : Z) :
  plot_range first rest = Ok (start, stop) ->
  (max_instant first rest < stop)%Z.
Proof.
  unfold plot_range, datetime_add.
  set (padding := if (times_0_02 _ <? five_minutes)%Z then five_minutes
                  else times_0_02 _).
  assert (Hp : (five_minutes <= padding)%Z).
  { unfold padding.
    destruct (times_0_02 _ <? five_minutes)%Z eqn:E; [lia|].
    apply Z.ltb_ge in E. exact E. }
  unfold five_minutes in Hp.
  destruct (_ || _)%bool; [discriminate|]. simpl.
  destruct (_ || _)%bool; [discriminate|]. simpl.
  intros H. injection H as _ <-. lia.
Qed.

(** X11.  The chart range leaves at least five minutes before the first and
    after the last of the events drawn. *)
Theorem plot_range_margins (first : Event) (rest : list Event)
    (start stop : Z) :
  plot_range first rest = Ok (start, stop) ->
  (stop - max_instant first rest = min_instant first rest - start)%Z
  /\ (five_minutes <= min_instant first rest - start)%Z
  /\ (times_0_02 (max_instant first rest - min_instant first rest)
      <= min_instant first rest - start)%Z
  /\ forall e, In e (first :: rest) ->
       (start + five_minutes <= instant e <= stop - five_minutes)%Z.
Proof.
  unfold plot_range, datetime_add.
  set (span := times_0_02 (max_instant first rest - min_instant first rest)).
  set (padding := if (span <? five_minutes)%Z then five_minutes else span).
  assert (Hp : (five_minutes <= padding /\ span <= padding)%Z).
  { unfold padding. destruct (span <? five_minutes)%Z eqn:E.
    - apply Z.ltb_lt in E. lia.
    - apply Z.ltb_ge in E. lia. }
  destruct (_ || _)%bool; [discriminate|]. simpl.
  destruct (_ || _)%bool; [discriminate|]. simpl.
  intros H. injection H as <- <-.
  repeat split; try lia.
  - pose proof (min_instant_le first rest e H). lia.
  - pose proof (max_instant_ge first rest e H). lia.
Qed.

Lemma str_ltb_irrefl (a : str) : str_ltb a a = false.
Proof.
  induction a as [|x a IH]; simpl; [reflexivity|].
  rewrite N.ltb_irrefl, N.eqb_refl, IH. reflexivity.
Qed.

Lemma str_ltb_trans (a : str) :
  forall b c, str_ltb a b = true -> str_ltb b c = true -> str_ltb a c = true.
Proof.
  induction a as [|x a IH]; intros [|y b] [|z c]; simpl; try discriminate;
    try reflexivity.
  intros H1 H2.
  apply orb_true_iff in H1. apply orb_true_iff in H2. apply orb_true_iff.
  destruct H1 as [H1 | H1]; destruct H2 as [H2 | H2].
  - left. apply N.ltb_lt in H1, H2. apply N.ltb_lt. lia.
  - apply andb_true_iff in H2 as [H2 _]. apply N.eqb_eq in H2. subst.
    left. exact H1.
  - apply andb_true_iff in H1 as [H1 _]. apply N.eqb_eq in H1. subst.
    left. exact H2.
  - apply andb_true_iff in H1 as [H1 H1'].
    apply andb_true_iff in H2 as [H2 H2'].
    apply N.eqb_eq in H1, H2. subst. right.
    rewrite N.eqb_refl. simpl. eapply IH; eassumption.
Qed.

Lemma str_ltb_total (a : str) :
  forall b,
    str_eqb a b = false -> str_ltb a b = false -> str_ltb b a = true.
Proof.
  induction a as [|x a IH]; intros [|y b]; simpl; try discriminate;
    try reflexivity.
  intros He Hl. apply orb_false_iff in Hl as [Hl1 Hl2].
  apply N.ltb_ge in Hl1.
  destruct (x =? y)%N eqn:E.
  - apply N.eqb_eq in E. subst y. simpl in *.
    rewrite N.ltb_irrefl, N.eqb_refl. simpl. apply IH; assumption.
  - apply N.eqb_neq in E. apply orb_true_iff. left. apply N.ltb_lt. lia.
Qed.

Lemma insert_service_in_iff (x s : str) (l : list str) :
  In x (insert_service s l) <-> x = s \/ In x l.
Proof.
  split; [apply insert_service_in|].
  induction l as [|y l IH]; simpl.
  - intros [-> | []]. left. reflexivity.
  - destruct (str_eqb s y) eqn:E.
    + apply str_eqb_eq in E. subst y. intros [-> | H]; [left|]; auto.
    + destruct (str_ltb s y); simpl.
      * intros [-> | [-> | H]]; auto.
      * intros [-> | [-> | H]]; auto.
Qed.

Lemma sorted_set_in_iff (x : str) (names : list str) :
  In x (sorted_set names) <-> In x names.
Proof.
  induction names as [|s names IH]; simpl; [tauto|].
  rewrite insert_service_in_iff, IH. split; intros [H | H]; auto.
Qed.

Lemma insert_service_sorted (s : str) (l : list str) :
  Sorted str_lt l -> Sorted str_lt (insert_service s l).
Proof.
  induction 1 as [|y l Hl IH Hy]; simpl.
  - constructor; constructor.
  - destruct (str_eqb s y) eqn:E; [constructor; assumption|].
    destruct (str_ltb s y) eqn:L.
    + constructor; [constructor; assumption|]. constructor. exact L.
    + constructor; [exact IH|].
      destruct l as [|z l]; simpl.
      * constructor. apply str_ltb_total; assumption.
      * inversion Hy as [|? ? Hyz]; subst.
        destruct (str_eqb s z); [constructor; exact Hyz|].
        destruct (str_ltb s z); constructor;
          [apply str_ltb_total; assumption|exact Hyz].
Qed.

(** X14.  The labels of the rows are the names given, each once, in the order of
    strings (by code point, a prefix first). *)
Theorem sorted_set_strictly_sorted (names : list str) :
  StronglySorted str_lt (sorted_set names)
  /\ NoDup (sorted_set names)
  /\ forall x, In x (sorted_set names) <-> In x names.
Proof.
  assert (Hs : StronglySorted str_lt (sorted_set names)).
  { apply Sorted_StronglySorted.
    - intros a b c. apply str_ltb_trans.
    - induction names as [|s names IH]; simpl; [constructor|].
      apply insert_service_sorted. exact IH. }
  split; [exact Hs|]. split; [|intros x; apply sorted_set_in_iff].
  induction Hs as [|y l Hl IH Hy]; constructor; [|exact IH].
  intros Hin. rewrite Forall_forall in Hy. specialize (Hy y Hin).
  unfold str_lt in Hy. rewrite str_ltb_irrefl in Hy. discriminate.
Qed.

Lemma StronglySorted_filter {A} (R : A -> A -> Prop) (f : A -> bool)
    (l : list A) :
  StronglySorted R l -> StronglySorted R (filter f l).
Proof.
  induction 1 as [|x l Hl IH Hx]; simpl; [constructor|].
  destruct (f x); [|exact IH]. constructor; [exact IH|].
  apply Forall_forall. intros y Hy. apply filter_In in Hy as [Hy _].
  rewrite Forall_forall in Hx. apply Hx. exact Hy.
Qed.

Lemma time_le_instant_le (l : list Event) :
  StronglySorted time_le l -> StronglySorted instant_le l.
Proof.
  induction 1 as [|x l Hl IH Hx]; constructor; [exact IH|].
  eapply Forall_impl; [|exact Hx].
  unfold time_le, instant_le, instant. intros a Ha. lia.
Qed.

Section Chart.

Variable py_lower : str -> str.

(** X12.  No bar of the chart has an empty or negative width, and every bar is in
    the row of one of the labels, whatever the order of the events. *)
Theorem bars_have_positive_width (events : list Event)
    (selected_services : list str) (bars : list Bar) :
  create_gantt_chart py_lower events selected_services = Ok bars ->
  Forall (fun b =>
            (0 < width b)%Z
            /\ (row b
                < length (sorted_set
                            (map service
                               (filter_events py_lower events
                                  selected_services))))%nat)
         bars.
Proof.
  unfold create_gantt_chart.
  destruct (filter_events py_lower events selected_services)
    as [|first rest] eqn:Ef.
  { intros H. injection H as <-. constructor. }
  destruct (sorted_set (map service (first :: rest))) as [|l0 labels] eqn:El.
  { intros H. injection H as <-. constructor. }
  destruct (plot_range first rest) as [[start stop]|x]; [|discriminate].
  simpl. intros H. injection H as <-.
  unfold plot_rows. apply Forall_forall. intros b Hb.
  apply in_flat_map in Hb as ([i label] & Hin & Hb).
  pose proof (plot_service_positive i start stop
                (filter (fun e => str_eqb (service e) label)
                   (first :: rest))) as Hp.
  rewrite Forall_forall in Hp. destruct (Hp b Hb) as [Hw Hr].
  split; [exact Hw|]. apply enumerate_index in Hin. simpl in *. lia.
Qed.

(** X13.  For events in chronological order, as [extract_events] returns them,
    the bars of every row tile the chart range: the first starts with the
    range, each starts where the one before ends, the last ends with the
    range; and the last bar, after the last event of the service, has the
    colour of the status of that event. *)
Theorem rows_tile_chart_range (events : list Event)
    (selected_services : list str) (first0 : Event) (rest0 : list Event)
    (start stop : Z) :
  StronglySorted time_le events ->
  filter_events py_lower events selected_services = first0 :: rest0 ->
  plot_range first0 rest0 = Ok (start, stop) ->
  forall i label,
    In (i, label)
       (enumerate 0 (sorted_set (map service (first0 :: rest0)))) ->
    exists before last,
      rev (filter (fun e => str_eqb (service e) label) (first0 :: rest0))
      = last :: before
      /\ tiles start stop
           (plot_service i start stop
              (filter (fun e => str_eqb (service e) label)
                 (first0 :: rest0)))
      /\ exists more,
           plot_service i start stop
             (filter (fun e => str_eqb (service e) label) (first0 :: rest0))
           = more ++ [mkBar i (instant last) (stop - instant last)
                        (colour_of (status last))].
Proof.
  intros Hsorted Hf Hr i label Hin.
  set (evs := filter (fun e => str_eqb (service e) label) (first0 :: rest0)).
  assert (Hsub : forall e, In e evs -> In e (first0 :: rest0))
    by (intros e He; apply filter_In in He as [He _]; exact He).
  assert (Hne : evs <> []).
  { apply enumerate_in, sorted_set_in, in_map_iff in Hin as (e & He & Hine).
    assert (Hsel : In e evs)
      by (apply filter_In; split;
          [exact Hine|rewrite He; apply str_eqb_refl]).
    intros E. rewrite E in Hsel. contradiction. }
  assert (Hs : StronglySorted instant_le evs).
  { apply time_le_instant_le, StronglySorted_filter.
    rewrite <- Hf. apply StronglySorted_filter. exact Hsorted. }
  pose proof (plot_range_start first0 rest0 start stop Hr) as Hstart.
  pose proof (plot_range_stop first0 rest0 start stop Hr) as Hstop.
  assert (Hlo : Forall (fun e => (start <= instant e)%Z) evs).
  { apply Forall_forall. intros e He.
    pose proof (min_instant_le first0 rest0 e (Hsub e He)). lia. }
  destruct (rev evs) as [|last before] eqn:Erev.
  { apply (f_equal (@rev Event)) in Erev. rewrite rev_involutive in Erev.
    contradiction. }
  assert (Hlast : In last evs)
    by (apply in_rev; rewrite Erev; left; reflexivity).
  exists before, last. split; [reflexivity|].
  unfold plot_service. destruct evs as [|first rest] eqn:Eevs;
    [contradiction|].
  pose proof (plot_events_tiles i (first :: rest) start
                (initial_status first) Hs Hlo) as [Ht _].
  pose proof (plot_events_final i (first :: rest) start
                (initial_status first)) as Hfin.
  rewrite Erev in Hfin.
  destruct (plot_events i start (initial_status first) (first :: rest))
    as [bars final].
  cbn [fst snd] in *. subst final. cbn [fst] in Ht.
  pose proof (max_instant_ge first0 rest0 last (Hsub last Hlast)) as Hm.
  unfold plot_tail.
  replace (instant last <? stop)%Z with true
    by (symmetry; apply Z.ltb_lt; lia).
  replace (0 <? stop - instant last)%Z with true
    by (symmetry; apply Z.ltb_lt; lia).
  split; [|exists bars; reflexivity].
  eapply tiles_app; [exact Ht|]. simpl. repeat split; lia.
Qed.

End Chart.

(** ** The main block *)

Lemma mem_in (x : str) (l : list str) : mem x l = true <-> In x l.
Proof.
  unfold mem. rewrite existsb_exists. split.
  - intros (y & Hy & E). apply str_eqb_eq in E. subst. exact Hy.
  - intros H. exists x. split; [exact H|apply str_eqb_refl].
Qed.

Lemma map_set_in (k v : str) (m : list (str * str)) (e : str * str) :
  In e (map_set k v m) -> e = (k, v) \/ In e m.
Proof.
  induction m as [|[k' v'] m IH]; simpl.
  - intros [<- | []]. left. reflexivity.
  - destruct (str_eqb k' k) eqn:E; simpl.
    + apply str_eqb_eq in E. subst k'. intros [<- | H]; auto.
    + intros [<- | H]; [auto|]. destruct (IH H); auto.
Qed.

Lemma map_set_keys (k v : str) (m : list (str * str)) (x : str) :
  In x (map fst (map_set k v m)) <-> x = k \/ In x (map fst m).
Proof.
  induction m as [|[k' v'] m IH]; simpl.
  - intuition.
  - destruct (str_eqb k' k) eqn:E; simpl.
    + apply str_eqb_eq in E. subst k'. intuition.
    + rewrite IH. intuition.
Qed.

Lemma map_set_nodup (k v : str) (m : list (str * str)) :
  NoDup (map fst m) -> NoDup (map fst (map_set k v m)).
Proof.
  induction m as [|[k' v'] m IH]; simpl; intros H.
  - constructor; [intros []|constructor].
  - inversion H as [|x l Hnot Hm]; subst.
    destruct (str_eqb k' k) eqn:E; simpl.
    + constructor; assumption.
    + constructor; [|apply IH; exact Hm].
      intros Hin. apply map_set_keys in Hin as [-> | Hin].
      * rewrite str_eqb_refl in E. discriminate.
      * contradiction.
Qed.

(** A key that is set holds the value set, whatever it held before. *)
Lemma map_set_value (k v v0 : str) (m : list (str * str)) :
  NoDup (map fst m) -> In (k, v) (map_set k v0 m) -> v = v0.
Proof.
  induction m as [|[k' v'] m IH]; simpl; intros H Hin.
  - destruct Hin as [E | []]. injection E as <-. reflexivity.
  - inversion H as [|x l Hnot Hm]; subst.
    destruct (str_eqb k' k) eqn:E; simpl in Hin.
    + apply str_eqb_eq in E. subst k'.
      destruct Hin as [E | Hin]; [injection E as <-; reflexivity|].
      exfalso. apply Hnot. apply (in_map fst) in Hin. exact Hin.
    + destruct Hin as [E' | Hin]; [|exact (IH Hm Hin)].
      injection E' as -> _. rewrite str_eqb_refl in E. discriminate.
Qed.

Lemma map_set_other (k v k0 v0 : str) (m : list (str * str)) :
  k <> k0 -> In (k, v) (map_set k0 v0 m) -> In (k, v) m.
Proof.
  intros Hk Hin. apply map_set_in in Hin as [E | Hin]; [|exact Hin].
  injection E as -> _. contradiction.
Qed.

Lemma find_app_last {A} (f : A -> bool) (l : list A) (x : A) :
  List.find f (l ++ [x])
  = match List.find f l with
    | Some y => Some y
    | None => if f x then Some x else None
    end.
Proof.
  induction l as [|y l IH]; simpl; [reflexivity|].
  destruct (f y); [reflexivity|exact IH].
Qed.

Lemma nodup_keys_filter (q : str * str -> bool) (m : list (str * str)) :
  NoDup (map fst m) -> NoDup (map fst (filter q m)).
Proof.
  induction m as [|e m IH]; simpl; intros H; [constructor|].
  inversion H as [|x l Hnot Hm]; subst.
  destruct (q e); simpl; [|exact (IH Hm)].
  constructor; [|exact (IH Hm)].
  intros Hin. apply Hnot. apply in_map_iff in Hin as (e' & E & He').
  apply filter_In in He' as [He' _]. rewrite <- E. apply in_map. exact He'.
Qed.

Section MainBlock.

Variable py_repr : value -> str.
Variable py_lower : str -> str.

Lemma user_map_fold (l : list str) :
  forall m,
    (forall x, In x (map fst (fold_left
                                (fun m s => map_set (selection_key py_lower s)
                                              s m) l m))
               <-> In x (map fst m)
                   \/ exists s, In s l /\ selection_key py_lower s = x)
    /\ (forall e, In e (fold_left
                          (fun m s => map_set (selection_key py_lower s) s m)
                          l m) ->
                  In e m
                  \/ In (snd e) l /\ selection_key py_lower (snd e) = fst e).
Proof.
  induction l as [|s l IH]; intros m; simpl.
  - split; [|auto]. intros x. split; [auto|].
    intros [H | (s & [] & _)]. exact H.
  - destruct (IH (map_set (selection_key py_lower s) s m)) as [H1 H2].
    split.
    + intros x. rewrite H1, map_set_keys. split.
      * intros [[-> | H] | (s' & Hs' & E)]; eauto.
      * intros [H | (s' & [-> | Hs'] & E)]; eauto.
    + intros e He. destruct (H2 e He) as [H | [H E]]; [|auto].
      apply map_set_in in H as [-> | H]; auto.
Qed.

Lemma user_map_keys (services_to_plot : list str) (x : str) :
  In x (map fst (user_services_map_lower_to_original py_lower
                   services_to_plot))
  <-> exists s, In s services_to_plot /\ selection_key py_lower s = x.
Proof.
  unfold user_services_map_lower_to_original.
  destruct (user_map_fold services_to_plot []) as [H _].
  rewrite H. simpl. split; [intros [[] | H']; exact H'|auto].
Qed.

Lemma user_map_entries (services_to_plot : list str) (e : str * str) :
  In e (user_services_map_lower_to_original py_lower services_to_plot) ->
  In (snd e) services_to_plot /\ selection_key py_lower (snd e) = fst e.
Proof.
  unfold user_services_map_lower_to_original.
  destruct (user_map_fold services_to_plot []) as [_ H].
  intros He. destruct (H e He) as [[] | H']. exact H'.
Qed.

(** The dict of the requests has one entry for each key, and the entry of
    a key holds the last request of that key. *)
Lemma user_map_last_fold (l : list str) :
  forall m,
    NoDup (map fst m) ->
    NoDup (map fst (fold_left
                      (fun m s => map_set (selection_key py_lower s) s m)
                      l m))
    /\ forall k v,
         In (k, v) (fold_left
                      (fun m s => map_set (selection_key py_lower s) s m)
                      l m) ->
         match last_request py_lower l k with
         | Some s => v = s
         | None => In (k, v) m
         end.
Proof.
  induction l as [|s l IH]; intros m Hm.
  - split; [exact Hm|]. intros k v Hin. exact Hin.
  - cbn [fold_left].
    destruct (IH (map_set (selection_key py_lower s) s m)
                (map_set_nodup _ _ _ Hm)) as [Hn Hlast].
    split; [exact Hn|]. intros k v Hin. specialize (Hlast k v Hin).
    unfold last_request in *. cbn [rev]. rewrite find_app_last.
    destruct (List.find _ (rev l)) as [y|]; [exact Hlast|].
    destruct (str_eqb (selection_key py_lower s) k) eqn:E.
    + apply str_eqb_eq in E. subst k.
      exact (map_set_value _ _ _ m Hm Hlast).
    + apply (map_set_other k v (selection_key py_lower s) s m);
        [|exact Hlast].
      intros Ek. subst k. rewrite str_eqb_refl in E. discriminate.
Qed.

Lemma user_map_nodup (services_to_plot : list str) :
  NoDup (map fst (user_services_map_lower_to_original py_lower
                    services_to_plot)).
Proof.
  unfold user_services_map_lower_to_original.
  apply (user_map_last_fold services_to_plot []). constructor.
Qed.

Lemma user_map_last (services_to_plot : list str) (k v : str) :
  In (k, v) (user_services_map_lower_to_original py_lower services_to_plot) ->
  last_request py_lower services_to_plot k = Some v.
Proof.
  unfold user_services_map_lower_to_original. intros Hin.
  destruct (user_map_last_fold services_to_plot [] (NoDup_nil _))
    as [_ H].
  specialize (H k v Hin).
  destruct (last_request py_lower services_to_plot k) as [s|];
    [subst; reflexivity|destruct H].
Qed.

Lemma detected_lower_in (all_events : list Event) (x : str) :
  In x (detected_services_set_lower py_lower all_events)
  <-> exists e, In e all_events /\ py_lower (service e) = x.
Proof.
  unfold detected_services_set_lower, all_detected_services.
  rewrite in_map_iff. split.
  - intros (name & <- & Hn). apply sorted_set_in_iff, in_map_iff in Hn
      as (e & <- & He). eauto.
  - intros (e & He & <-). exists (service e). split; [reflexivity|].
    apply sorted_set_in_iff, in_map_iff. eauto.
Qed.

Lemma services_for_charting_in (all_events : list Event)
    (services_to_plot : list str) (s : str) :
  In s (services_for_charting py_lower all_events services_to_plot)
  <-> In s services_to_plot
      /\ exists e, In e all_events
                   /\ py_lower (service e) = selection_key py_lower s.
Proof.
  unfold services_for_charting, valid_services_lower.
  rewrite filter_In, mem_in, filter_In, mem_in, user_map_keys,
    detected_lower_in.
  split.
  - intros (Hs & _ & He). auto.
  - intros (Hs & He). split; [exact Hs|]. split; [eauto|exact He].
Qed.

Lemma filter_events_in (events : list Event) (selected : list str)
    (e : Event) :
  In e (filter_events py_lower events selected)
  <-> In e events
      /\ exists s, In s selected
                   /\ selection_key py_lower s = py_lower (service e).
Proof.
  unfold filter_events. rewrite filter_In. fold (mem (py_lower (service e))
    (map (selection_key py_lower) selected)).
  rewrite mem_in, in_map_iff. split.
  - intros (He & s & E & Hs). eauto.
  - intros (He & s & Hs & E). eauto.
Qed.

(** X15.  Passing only the names that were found to [create_gantt_chart] selects
    the same events as the whole list of names would: a name that was not
    found matches no event. *)
Theorem charting_list_selects_same_events (all_events : list Event)
    (services_to_plot : list str) :
  filter_events py_lower all_events
    (services_for_charting py_lower all_events services_to_plot)
  = filter_events py_lower all_events services_to_plot.
Proof.
  unfold filter_events. apply filter_ext_in. intros e He.
  fold (mem (py_lower (service e))
          (map (selection_key py_lower)
             (services_for_charting py_lower all_events services_to_plot))).
  fold (mem (py_lower (service e))
          (map (selection_key py_lower) services_to_plot)).
  apply Bool.eq_iff_eq_true. rewrite !mem_in, !in_map_iff. split.
  - intros (s & E & Hs). exists s. split; [exact E|].
    apply services_for_charting_in in Hs as [Hs _]. exact Hs.
  - intros (s & E & Hs). exists s. split; [exact E|].
    apply services_for_charting_in. split; [exact Hs|]. eauto.
Qed.

(** X16.  Every name requested is either passed to the chart or covered by a
    warning that names a request with the same key: the last request of
    that key.  The names warned about are requests that match no event,
    each the last request of its key, one for each key; no name passed to
    the chart shares its key with a name warned about. *)
Theorem requests_charted_or_warned (all_events : list Event)
    (services_to_plot : list str) :
  (forall s, In s services_to_plot ->
     In s (services_for_charting py_lower all_events services_to_plot)
     \/ exists s',
          In s' (invalid_services_original py_lower all_events
                   services_to_plot)
          /\ selection_key py_lower s' = selection_key py_lower s
          /\ last_request py_lower services_to_plot
               (selection_key py_lower s) = Some s')
  /\ (forall s',
        In s' (invalid_services_original py_lower all_events
                 services_to_plot) ->
        In s' services_to_plot
        /\ last_request py_lower services_to_plot
             (selection_key py_lower s') = Some s'
        /\ (forall e, In e all_events ->
              py_lower (service e) <> selection_key py_lower s')
        /\ forall s,
             In s (services_for_charting py_lower all_events
                     services_to_plot) ->
             selection_key py_lower s <> selection_key py_lower s')
  /\ NoDup (map (selection_key py_lower)
              (invalid_services_original py_lower all_events
                 services_to_plot)).
Proof.
  split; [|split].
  - intros s Hs.
    destruct (mem (selection_key py_lower s)
                (detected_services_set_lower py_lower all_events)) eqn:E.
    + left. apply services_for_charting_in. split; [exact Hs|].
      apply mem_in, detected_lower_in in E. exact E.
    + right.
      assert (Hk : In (selection_key py_lower s)
                     (map fst (user_services_map_lower_to_original py_lower
                                 services_to_plot)))
        by (apply user_map_keys; eauto).
      apply in_map_iff in Hk as ([k v] & Hkv & Hin). simpl in Hkv. subst k.
      exists v. split; [|split].
      * unfold invalid_services_original. apply in_map_iff.
        exists (selection_key py_lower s, v). split; [reflexivity|].
        apply filter_In. split; [exact Hin|]. simpl. rewrite E. reflexivity.
      * apply user_map_entries in Hin as [_ Hv]. exact Hv.
      * apply user_map_last. exact Hin.
  - intros s' Hs'. unfold invalid_services_original in Hs'.
    apply in_map_iff in Hs' as ([k v] & Hv & Hin). simpl in Hv. subst v.
    apply filter_In in Hin as [Hin Hnot]. simpl in Hnot.
    apply negb_true_iff in Hnot.
    pose proof (user_map_last _ _ _ Hin) as Hlast.
    apply user_map_entries in Hin as [Hin Hk]. simpl in Hin, Hk. subst k.
    assert (Hno : forall e, In e all_events ->
                    py_lower (service e) <> selection_key py_lower s').
    { intros e He E.
      assert (H : mem (selection_key py_lower s')
                    (detected_services_set_lower py_lower all_events) = true)
        by (apply mem_in, detected_lower_in; eauto).
      congruence. }
    split; [exact Hin|]. split; [exact Hlast|]. split; [exact Hno|].
    intros s Hs E. apply services_for_charting_in in Hs as (_ & e & He & Hl).
    apply (Hno e He). congruence.
  - unfold invalid_services_original. rewrite map_map.
    rewrite (map_ext_in _ fst).
    + apply nodup_keys_filter, user_map_nodup.
    + intros e He. apply filter_In in He as [He _].
      apply user_map_entries in He as [_ Hk]. exact Hk.
Qed.

Lemma valid_services_select (all_events : list Event)
    (services_to_plot : list str) :
  valid_services_lower py_lower all_events services_to_plot <> [] ->
  filter_events py_lower all_events
    (services_for_charting py_lower all_events services_to_plot) <> [].
Proof.
  intros Hv.
  destruct (valid_services_lower py_lower all_events services_to_plot)
    as [|k ks] eqn:E; [contradiction|].
  assert (Hk : In k (valid_services_lower py_lower all_events
                       services_to_plot))
    by (rewrite E; left; reflexivity).
  unfold valid_services_lower in Hk.
  apply filter_In in Hk as [Hk Hd].
  apply user_map_keys in Hk as (s & Hs & <-).
  apply mem_in, detected_lower_in in Hd as (e & He & Hl).
  assert (Hin : In e (filter_events py_lower all_events
                        (services_for_charting py_lower all_events
                           services_to_plot))).
  { apply filter_events_in. split; [exact He|]. exists s.
    split; [|symmetry; exact Hl].
    apply services_for_charting_in. eauto. }
  intros E'. rewrite E' in Hin. contradiction.
Qed.

(** X17.  When the main block draws a chart, at least one event is selected and
    at least one bar is drawn: the early returns of [create_gantt_chart] are
    not taken, and the services listed are those of the events extracted. *)
Theorem main_chart_is_not_empty (file : file_state)
    (services_to_plot detected warned : list str) (bars : list Bar) :
  main py_repr py_lower file services_to_plot
  = Ok (Charted detected warned bars) ->
  exists all_events first rest start stop,
    extract_events py_repr (snd (parse_hetrix_log file)) = Ok all_events
    /\ detected = sorted_set (map service all_events)
    /\ filter_events py_lower all_events
         (services_for_charting py_lower all_events services_to_plot)
       = first :: rest
    /\ plot_range first rest = Ok (start, stop)
    /\ bars = plot_rows (first :: rest)
                (sorted_set (map service (first :: rest))) start stop
    /\ bars <> [].
Proof.
  unfold main.
  destruct (truthy (snd (parse_hetrix_log file))); [|discriminate].
  destruct (extract_events py_repr (snd (parse_hetrix_log file)))
    as [all_events|x]; [|discriminate].
  cbn [bind]. destruct all_events as [|e0 evs0]; [discriminate|].
  destruct services_to_plot as [|s0 ss0]; [discriminate|].
  destruct (valid_services_lower py_lower (e0 :: evs0) (s0 :: ss0))
    as [|k ks] eqn:Ev; [discriminate|].
  assert (Hv : valid_services_lower py_lower (e0 :: evs0) (s0 :: ss0) <> [])
    by (rewrite Ev; discriminate).
  apply valid_services_select in Hv.
  unfold create_gantt_chart.
  destruct (filter_events py_lower (e0 :: evs0)
              (services_for_charting py_lower (e0 :: evs0) (s0 :: ss0)))
    as [|first rest] eqn:Ef; [contradiction|].
  destruct (sorted_set (map service (first :: rest))) as [|l0 labels] eqn:El.
  { assert (H : In (service first) (sorted_set (map service (first :: rest))))
      by (apply sorted_set_in_iff; left; reflexivity).
    rewrite El in H. contradiction. }
  destruct (plot_range first rest) as [[start stop]|x] eqn:Er;
    [|discriminate].
  cbn [bind]. intros H. injection H as <- <- <-.
  exists (e0 :: evs0), first, rest, start, stop.
  split; [reflexivity|]. split; [reflexivity|]. split; [exact Ef|].
  split; [exact Er|]. split; [rewrite El; reflexivity|].
  unfold plot_rows. cbn [enumerate flat_map fst snd].
  assert (Hl0 : In l0 (sorted_set (map service (first :: rest))))
    by (rewrite El; left; reflexivity).
  apply sorted_set_in_iff, in_map_iff in Hl0 as (e & He & Hin).
  assert (Hsel : In e (filter (fun e => str_eqb (service e) l0)
                         (first :: rest)))
    by (apply filter_In; split; [exact Hin|rewrite He; apply str_eqb_refl]).
  destruct (filter (fun e => str_eqb (service e) l0) (first :: rest))
    as [|f r] eqn:E; [contradiction|].
  assert (Hf : In f (first :: rest)).
  { assert (H : In f (f :: r)) by (left; reflexivity).
    rewrite <- E in H. apply filter_In in H as [H _]. exact H. }
  pose proof (plot_range_start first rest start stop Er) as Hs.
  pose proof (min_instant_le first rest f Hf) as Hm.
  destruct (plot_service_first_bar 0 start stop f r) as [more Hb]; [lia|].
  rewrite Hb. discriminate.
Qed.

End MainBlock.

(** ** The key of a requested name *)

Lemma lstrip_by_app_keep (p : char -> bool) (v : str) :
  forallb (fun c => negb (p c)) v = true ->
  forall s, lstrip_by p (s ++ v) = lstrip_by p s ++ v.
Proof.
  intros Hv. induction s as [|c s IH]; simpl.
  - destruct v as [|x v]; [reflexivity|]. simpl in *.
    apply andb_true_iff in Hv as [Hx _]. apply negb_true_iff in Hx.
    rewrite Hx. reflexivity.
  - destruct (p c); [exact IH|reflexivity].
Qed.

Lemma rstrip_by_app_keep (p : char -> bool) (v : str) :
  forallb (fun c => negb (p c)) v = true -> v <> [] ->
  forall u, rstrip_by p (u ++ v) = u ++ v.
Proof.
  intros Hv Hne. induction u as [|c u IH]; simpl.
  - apply rstrip_by_none. exact Hv.
  - rewrite IH. destruct (u ++ v) eqn:E; [|reflexivity].
    apply app_eq_nil in E as [_ E]. contradiction.
Qed.

Lemma rstrip_by_tail (p : char -> bool) (c : char) (s : str) :
  rstrip_by p (c :: s) = c :: s -> rstrip_by p s = s.
Proof.
  simpl. destruct (rstrip_by p s) as [|x r].
  - destruct (p c); intros H; [discriminate|]. injection H as <-.
    reflexivity.
  - intros H. injection H as <-. reflexivity.
Qed.

Lemma rstrip_by_lstrip (p q : char -> bool) (s : str) :
  rstrip_by p s = s -> rstrip_by p (lstrip_by q s) = lstrip_by q s.
Proof.
  induction s as [|c s IH]; simpl lstrip_by; [auto|].
  intros H. destruct (q c); [|exact H].
  apply IH. eapply rstrip_by_tail. exact H.
Qed.

Lemma repeat_slash_not_space (n : nat) :
  forallb (fun c => negb (isspace c)) (repeat slash n) = true.
Proof. induction n; simpl; [reflexivity|exact IHn]. Qed.

Lemma repeat_slash_all (n : nat) :
  forallb (N.eqb slash) (repeat slash n) = true.
Proof. induction n; simpl; [reflexivity|exact IHn]. Qed.

Lemma rstrip_slash_last (t : str) :
  ends_with_slash (rstrip_slash t) = false.
Proof.
  unfold ends_with_slash, rstrip_slash.
  induction t as [|c t IH]; [reflexivity|]. cbn [rstrip_by].
  destruct (rstrip_by (N.eqb slash) t) as [|x r] eqn:E.
  - destruct (N.eqb slash c) eqn:Ec; [reflexivity|].
    cbn [rev app]. rewrite N.eqb_sym. exact Ec.
  - cbn [rev] in *. destruct (rev r ++ [x]) eqn:Er.
    + apply app_eq_nil in Er as [_ Er]. discriminate.
    + cbn [app]. exact IH.
Qed.

Section Selection.

Variable py_lower : str -> str.

(** X18.  A requested name with trailing slashes has the key of the name without
    them, provided the name does not end with whitespace: both select the
    same events. *)
Theorem selection_key_ignores_trailing_slashes (s : str) (n : nat) :
  rstrip_by isspace s = s ->
  selection_key py_lower (s ++ repeat slash n) = selection_key py_lower s.
Proof.
  intros Hs. unfold selection_key. f_equal.
  destruct n as [|n]; [simpl; rewrite app_nil_r; reflexivity|].
  unfold strip, strip_by.
  rewrite (lstrip_by_app_keep isspace _ (repeat_slash_not_space (S n))).
  rewrite rstrip_by_app_keep;
    [|apply repeat_slash_not_space|discriminate].
  rewrite (rstrip_by_lstrip isspace isspace s Hs).
  unfold rstrip_slash. apply rstrip_by_app. apply repeat_slash_all.
Qed.

(** X19.  An event whose service ends with a slash is never drawn, whatever names
    are requested, since the key of a request never ends with one.  This
    holds for a lower-casing that neither adds nor removes a final slash, as
    [str.lower] does. *)
Theorem service_ending_with_slash_never_selected (events : list Event)
    (selected_services : list str) (e : Event) :
  (forall s, ends_with_slash (py_lower s) = ends_with_slash s) ->
  In e (filter_events py_lower events selected_services) ->
  ends_with_slash (service e) = false.
Proof.
  intros Hlower He. unfold filter_events in He.
  apply filter_In in He as [_ He].
  apply existsb_exists in He as (k & Hk & E).
  apply str_eqb_eq in E. apply in_map_iff in Hk as (s & <- & _).
  rewrite <- Hlower, E. unfold selection_key.
  rewrite Hlower. apply rstrip_slash_last.
Qed.

End Selection.

(** * More examples *)

(** Two requests with the key "foo" and no event of that name: the warning
    names the later one. *)
Lemma requests_charted_or_warned_example :
  invalid_services_original ascii_lower [mkEvent (lit "bar.com") UP 0]
    [lit "Foo/"; lit "bar.com"; lit "foo"]
  = [lit "foo"]
  /\ services_for_charting ascii_lower [mkEvent (lit "bar.com") UP 0]
       [lit "Foo/"; lit "bar.com"; lit "foo"]
     = [lit "bar.com"]
  /\ last_request ascii_lower [lit "Foo/"; lit "bar.com"; lit "foo"]
       (lit "foo")
     = Some (lit "foo").
Proof.
  destruct (requests_charted_or_warned ascii_lower
              [mkEvent (lit "bar.com") UP 0]
              [lit "Foo/"; lit "bar.com"; lit "foo"]) as (_ & H & _).
  destruct (H (lit "foo") (or_introl eq_refl)) as (_ & Hlast & _).
  split; [reflexivity|]. split; [reflexivity|]. exact Hlast.
Defined.


Lemma extract_events_well_formed_example :
  extract_events repr_unused (VList [msg_link_only; msg_title_and_target])
  = Ok [mkEvent (lit "example.com") DOWN 1700000000;
        mkEvent (lit "svc.org") DOWN 1700000300]
  /\ Forall (fun e =>
               service e <> []
               /\ collapse_ws (service e) = service e
               /\ strip (service e) = service e
               /\ (datetime_min <= time e <= datetime_max)%Z)
       [mkEvent (lit "example.com") DOWN 1700000000;
        mkEvent (lit "svc.org") DOWN 1700000300].
Proof.
  assert (H : extract_events repr_unused
                (VList [msg_link_only; msg_title_and_target])
              = Ok [mkEvent (lit "example.com") DOWN 1700000000;
                    mkEvent (lit "svc.org") DOWN 1700000300])
    by reflexivity.
  split; [exact H|].
  exact (extract_events_well_formed repr_unused _ _ H).
Defined.

(** A timestamp in the year 33658. *)
Lemma invalid_timestamp_skipped_example :
  dict_lookup (lit "date_unixtime") dict_year_33658
  = Some (VInt 1000000000000)
  /\ process_message repr_unused (VDict dict_year_33658) = Ok None.
Proof.
  split; [reflexivity|].
  apply (invalid_timestamp_skipped repr_unused dict_year_33658
           (VInt 1000000000000) eq_refl).
  simpl. unfold gmtime_min, gmtime_max, datetime_min, datetime_max. lia.
Defined.

Lemma chronological_input_keeps_order_example :
  extract_events repr_unused (VList [msg_title_and_target; msg_link_only])
  = Ok [mkEvent (lit "example.com") DOWN 1700000000;
        mkEvent (lit "svc.org") DOWN 1700000300].
Proof.
  rewrite (chronological_input_keeps_order repr_unused
             [msg_title_and_target; msg_link_only]).
  - reflexivity.
  - constructor; [eexists; reflexivity|].
    constructor; [eexists; reflexivity|constructor].
  - change (StronglySorted time_le
              [mkEvent (lit "example.com") DOWN 1700000000;
               mkEvent (lit "svc.org") DOWN 1700000300]).
    constructor; [constructor; constructor|].
    constructor; [|constructor]. unfold time_le. simpl. lia.
Defined.

Lemma message_order_irrelevant_example :
  extract_events repr_unused (VList [msg_link_only; msg_title_and_target])
  = Ok [mkEvent (lit "example.com") DOWN 1700000000;
        mkEvent (lit "svc.org") DOWN 1700000300]
  /\ extract_events repr_unused (VList [msg_title_and_target; msg_link_only])
     = Ok [mkEvent (lit "example.com") DOWN 1700000000;
           mkEvent (lit "svc.org") DOWN 1700000300].
Proof.
  assert (H : extract_events repr_unused
                (VList [msg_link_only; msg_title_and_target])
              = Ok [mkEvent (lit "example.com") DOWN 1700000000;
                    mkEvent (lit "svc.org") DOWN 1700000300])
    by reflexivity.
  split; [exact H|].
  apply (message_order_irrelevant repr_unused
           [msg_link_only; msg_title_and_target]
           [msg_title_and_target; msg_link_only] _ H).
  - apply perm_swap.
  - simpl. constructor.
    + intros [E | []]. discriminate.
    + constructor; [intros []|constructor].
Defined.

Lemma title_names_service_example :
  Eligible repr_unused msg_trailing_slash 1700000000 []
    [entity "bold" "example.com/ is now UP"]
  /\ process_message repr_unused msg_trailing_slash
     = Ok (Some (mkEvent (lit "example.com") UP 1700000000)).
Proof.
  assert (Hel : Eligible repr_unused msg_trailing_slash 1700000000 []
            [entity "bold" "example.com/ is now UP"])
    by (constructor; reflexivity).
  split; [exact Hel|].
  rewrite (title_names_service repr_unused msg_trailing_slash 1700000000 []
             [entity "bold" "example.com/ is now UP"] UP
             (lit "example.com/") [space] (lit "is now UP") [] Hel eq_refl
             eq_refl).
  - reflexivity.
  - discriminate.
  - reflexivity.
  - left. reflexivity.
Defined.

(** The body ends after "Target: ": the link "svc.org" is not used. *)
Lemma blank_target_line_drops_message_example :
  first_link [entity "bold" "is still DOWN"; entity "link" "svc.org"]
  = Ok (Some (lit "svc.org"))
  /\ process_message repr_unused msg_blank_target = Ok None.
Proof.
  split; [reflexivity|].
  apply (blank_target_line_drops_message repr_unused msg_blank_target
           1700000000
           [entity "bold" "is still DOWN"; entity "link" "svc.org"]
           DOWN (VStr (lit "is still DOWN")) (lit "Alert" ++ [newline]) []
           space).
  - constructor; reflexivity.
  - reflexivity.
  - reflexivity.
  - reflexivity.
  - reflexivity.
  - reflexivity.
  - reflexivity.
Defined.

Lemma plot_range_margins_example :
  plot_range (mkEvent (lit "alpha") UP 1700000000)
    [mkEvent (lit "alpha") DOWN 1700086400]
  = Ok (1699998272000000, 1700088128000000)%Z
  /\ (forall e,
        In e [mkEvent (lit "alpha") UP 1700000000;
              mkEvent (lit "alpha") DOWN 1700086400] ->
        (1699998272000000 + five_minutes <= instant e
         <= 1700088128000000 - five_minutes)%Z).
Proof.
  assert (H : plot_range (mkEvent (lit "alpha") UP 1700000000)
                [mkEvent (lit "alpha") DOWN 1700086400]
              = Ok (1699998272000000, 1700088128000000)%Z)
    by reflexivity.
  split; [exact H|].
  exact (proj2 (proj2 (proj2 (plot_range_margins _ _ _ _ H)))).
Defined.

Lemma bars_have_positive_width_example :
  create_gantt_chart ascii_lower example_events [lit "Alpha/"; lit "BETA"]
  = Ok [mkBar 0 1699999700000000 300000000 lightcoral;
        mkBar 0 1700000000000000 600000000 mediumseagreen;
        mkBar 0 1700000600000000 300000000 lightcoral;
        mkBar 1 1699999700000000 600000000 lightcoral;
        mkBar 1 1700000300000000 600000000 mediumseagreen]
  /\ Forall (fun b => (0 < width b)%Z /\ (row b < 2)%nat)
       [mkBar 0 1699999700000000 300000000 lightcoral;
        mkBar 0 1700000000000000 600000000 mediumseagreen;
        mkBar 0 1700000600000000 300000000 lightcoral;
        mkBar 1 1699999700000000 600000000 lightcoral;
        mkBar 1 1700000300000000 600000000 mediumseagreen].
Proof.
  assert (H : create_gantt_chart ascii_lower example_events
                [lit "Alpha/"; lit "BETA"]
              = Ok [mkBar 0 1699999700000000 300000000 lightcoral;
                    mkBar 0 1700000000000000 600000000 mediumseagreen;
                    mkBar 0 1700000600000000 300000000 lightcoral;
                    mkBar 1 1699999700000000 600000000 lightcoral;
                    mkBar 1 1700000300000000 600000000 mediumseagreen])
    by reflexivity.
  split; [exact H|].
  exact (bars_have_positive_width ascii_lower _ _ _ H).
Defined.

Lemma rows_tile_chart_range_example :
  StronglySorted time_le example_events
  /\ tiles 1699999700000000 1700000900000000
       [mkBar 0 1699999700000000 300000000 lightcoral;
        mkBar 0 1700000000000000 600000000 mediumseagreen;
        mkBar 0 1700000600000000 300000000 lightcoral].
Proof.
  assert (Hs : StronglySorted time_le example_events).
  { unfold example_events, time_le.
    repeat (constructor; simpl; try lia). }
  split; [exact Hs|].
  destruct (rows_tile_chart_range ascii_lower example_events
              [lit "Alpha/"; lit "BETA"]
              (mkEvent (lit "alpha") UP 1700000000)
              [mkEvent (lit "beta") UP 1700000300;
               mkEvent (lit "alpha") DOWN 1700000600]
              1699999700000000 1700000900000000 Hs eq_refl eq_refl
              0%nat (lit "alpha"))
    as (before & last & _ & Ht & _).
  - left. reflexivity.
  - exact Ht.
Defined.

Lemma main_chart_is_not_empty_example :
  main repr_unused ascii_lower example_file
    [lit " Example.com/"; lit "nothere"; lit "NotHere/"]
  = Ok (Charted [lit "example.com"; lit "svc.org"] [lit "NotHere/"]
          [mkBar 0 1699999700000000 300000000 mediumseagreen;
           mkBar 0 1700000000000000 300000000 lightcoral])
  /\ exists all_events first rest start stop,
       extract_events repr_unused (snd (parse_hetrix_log example_file))
       = Ok all_events
       /\ [lit "example.com"; lit "svc.org"]
          = sorted_set (map service all_events)
       /\ filter_events ascii_lower all_events
            (services_for_charting ascii_lower all_events
               [lit " Example.com/"; lit "nothere"; lit "NotHere/"])
          = first :: rest
       /\ plot_range first rest = Ok (start, stop)
       /\ [mkBar 0 1699999700000000 300000000 mediumseagreen;
           mkBar 0 1700000000000000 300000000 lightcoral]
          = plot_rows (first :: rest)
              (sorted_set (map service (first :: rest))) start stop
       /\ [mkBar 0 1699999700000000 300000000 mediumseagreen;
           mkBar 0 1700000000000000 300000000 lightcoral] <> [].
Proof.
  assert (H : main repr_unused ascii_lower example_file
                [lit " Example.com/"; lit "nothere"; lit "NotHere/"]
              = Ok (Charted [lit "example.com"; lit "svc.org"]
                      [lit "NotHere/"]
                      [mkBar 0 1699999700000000 300000000 mediumseagreen;
                       mkBar 0 1700000000000000 300000000 lightcoral]))
    by (vm_compute; reflexivity).
  split; [exact H|].
  exact (main_chart_is_not_empty repr_unused ascii_lower _ _ _ _ _ H).
Defined.

Lemma selection_key_ignores_trailing_slashes_example :
  rstrip_by isspace (lit " Alpha") = lit " Alpha"
  /\ selection_key ascii_lower (lit " Alpha" ++ repeat slash 2)
     = selection_key ascii_lower (lit " Alpha").
Proof.
  split; [reflexivity|].
  apply (selection_key_ignores_trailing_slashes ascii_lower (lit " Alpha") 2).
  reflexivity.
Defined.

Lemma ascii_lower_keeps_slash (s : str) :
  ends_with_slash (ascii_lower s) = ends_with_slash s.
Proof.
  assert (H : forall l : str,
             match ascii_lower l with
             | [] => false
             | c :: _ => (c =? slash)%N
             end
             = match l with [] => false | c :: _ => (c =? slash)%N end).
  { intros [|c r]; [reflexivity|]. unfold ascii_lower. cbn [map].
    destruct ((65 <=? c) && (c <=? 90))%N eqn:E; [|reflexivity].
    apply andb_true_iff in E as [E1 E2]. apply N.leb_le in E1, E2.
    transitivity false; [|symmetry]; apply N.eqb_neq; unfold slash; lia. }
  unfold ends_with_slash. rewrite <- (H (rev s)).
  replace (rev (ascii_lower s)) with (ascii_lower (rev s))
    by apply map_rev.
  reflexivity.
Qed.

(** The service "a/" cannot be requested: "a/" and "a" both have the key
    "a". *)
Lemma service_ending_with_slash_never_selected_example :
  filter_events ascii_lower
    [mkEvent (lit "a/") UP 1700000000; mkEvent (lit "a") UP 1700000300]
    [lit "a/"; lit "A"]
  = [mkEvent (lit "a") UP 1700000300]
  /\ ends_with_slash (service (mkEvent (lit "a") UP 1700000300)) = false.
Proof.
  split; [reflexivity|].
  apply (service_ending_with_slash_never_selected ascii_lower
           [mkEvent (lit "a/") UP 1700000000; mkEvent (lit "a") UP 1700000300]
           [lit "a/"; lit "A"] _ ascii_lower_keeps_slash).
  left. reflexivity.
Defined.

Lemma extract_events_total_example :
  Forall timestamp_converts [msg_title_and_target; msg_link_only]
  /\ Forall texts_are_strings [msg_title_and_target; msg_link_only]
  /\ extract_events repr_unused (VList [msg_title_and_target; msg_link_only])
     = Ok (sort_by_time
             (flat_map (events_of repr_unused)
                [msg_title_and_target; msg_link_only])).
Proof.
  assert (Hts : Forall timestamp_converts
                  [msg_title_and_target; msg_link_only]).
  { repeat constructor; intros d v Hd Hv; injection Hd as <-;
      vm_compute in Hv; injection Hv as <-; vm_compute;
      split; discriminate. }
  assert (Htx : Forall texts_are_strings
                  [msg_title_and_target; msg_link_only]).
  { repeat constructor; intros d es Hd He; injection Hd as <-;
      vm_compute in He; injection He as <-;
      repeat constructor; eexists; reflexivity. }
  split; [exact Hts|]. split; [exact Htx|].
  exact (extract_events_total repr_unused _ Hts Htx).
Defined.

Lemma normalize_idempotent_without_slash_example :
  normalize (lit " my   server// ") = lit "my server//"
  /\ normalize (lit "my   server//") = lit "my server"
  /\ rstrip_slash (normalize (lit "my   server//"))
     = normalize (lit "my   server//")
  /\ normalize (normalize (lit "my   server//"))
     = normalize (lit "my   server//").
Proof.
  split; [reflexivity|]. split; [reflexivity|]. split; [reflexivity|].
  apply (normalize_idempotent_without_slash (lit "my   server//")).
  reflexivity.
Defined.
